(** * Notion Research Buddy: a shallow embedding of [server.py]

    The server reads the paragraph text of a Notion page, runs a two-node
    LangGraph pipeline (refiner, architect) against a chat model and appends
    the results to the page; a second tool merges Mermaid diagrams, and a
    FastAPI wrapper maps result strings to HTTP responses.

    Python strings are sequences of Unicode code points, so a string is a
    list of code points here; the remote collaborators (the Notion block
    store and the chat model) are oracles of a [World], and every call to
    one of them is recorded in a trace of events. *)

From Stdlib Require Import Ascii String DecimalString.
From Stdlib Require Import List NArith Bool Arith Lia.
Import ListNotations.

(** ** Python strings *)

Module PyStr.

Definition char := N.
Definition str := list char.

(** A literal of the source whose characters are all ASCII. *)
Definition lit (s : string) : str := map N_of_ascii (list_ascii_of_string s).

Definition newline : char := 10%N.
Definition backtick : char := 96%N.
Definition dquote : char := 34%N.

Fixpoint eqb (a b : str) : bool :=
  match a, b with
  | [], [] => true
  | x :: a', y :: b' => N.eqb x y && eqb a' b'
  | _, _ => false
  end.

(** Truth value of a string: [bool(s)], false exactly for the empty string. *)
Definition truthy (s : str) : bool :=
  match s with
  | [] => false
  | _ :: _ => true
  end.

(** [s.startswith(prefix)] *)
Fixpoint startswith (prefix s : str) : bool :=
  match prefix, s with
  | [], _ => true
  | _ :: _, [] => false
  | p :: prefix', c :: s' => N.eqb p c && startswith prefix' s'
  end.

(** [sub in s] *)
Fixpoint contains (sub s : str) : bool :=
  match s with
  | [] => startswith sub []
  | _ :: s' => startswith sub s || contains sub s'
  end.

(** [s.replace(old, new)]: the occurrences of [old] are found scanning from
    the left and do not overlap; [skip] counts the characters of a found
    occurrence that are still to be passed over. *)
Fixpoint replace_from (old new : str) (skip : nat) (s : str) : str :=
  match s with
  | [] => []
  | c :: s' =>
      match skip with
      | S k => replace_from old new k s'
      | O =>
          if startswith old s
          then new ++ replace_from old new (length old - 1) s'
          else c :: replace_from old new 0 s'
      end
  end.

Definition replace (old new s : str) : str :=
  match old with
  | [] => new ++ flat_map (fun c => c :: new) s
  | _ :: _ => replace_from old new 0 s
  end.

(** [c.isspace()] for one character: the code points of Unicode white space
    that [str.strip()] removes. *)
Definition isspace (c : char) : bool :=
  (((9 <=? c) && (c <=? 13)) || ((28 <=? c) && (c <=? 32))
   || (c =? 133) || (c =? 160) || (c =? 5760)
   || ((8192 <=? c) && (c <=? 8202))
   || (c =? 8232) || (c =? 8233) || (c =? 8239) || (c =? 8287)
   || (c =? 12288))%N.

Fixpoint lstrip (s : str) : str :=
  match s with
  | [] => []
  | c :: s' => if isspace c then lstrip s' else s
  end.

Fixpoint rstrip (s : str) : str :=
  match s with
  | [] => []
  | c :: s' =>
      match rstrip s' with
      | [] => if isspace c then [] else [c]
      | r => c :: r
      end
  end.

(** [s.strip()] *)
Definition strip (s : str) : str := rstrip (lstrip s).

(** [sep.join(parts)] *)
Fixpoint join (sep : str) (parts : list str) : str :=
  match parts with
  | [] => []
  | [p] => p
  | p :: rest => p ++ sep ++ join sep rest
  end.

(** [s[:n]] for a non-negative [n] *)
Definition slice_to (n : nat) (s : str) : str := firstn n s.

(** [str(n)] for a non-negative integer *)
Definition of_nat (n : nat) : str := lit (NilZero.string_of_uint (Nat.to_uint n)).

(** [s * n], as in ['#' * level] *)
Definition times (s : str) (n : nat) : str := concat (repeat s n).

End PyStr.

Import PyStr.

(** ** Data models *)

(** [AgentState]: the shared memory of the agent; the two optional fields
    default to [None]. *)
Module AgentState.
Record t := mk {
  raw_notes : str;
  refined_notes : option str;
  mermaid_code : option str;
  page_id : str
}.
End AgentState.

Module PageContext.
Record t := mk { page_id : str }.
End PageContext.

Module DiagramInput.
Record t := mk { label : str; mermaid_code : str }.
End DiagramInput.

Module CombineDiagramsContext.
Record t := mk { diagrams : list DiagramInput.t; title : str }.
End CombineDiagramsContext.

(** A child block as the Notion API lists it: [block["type"]] and, for the
    block kinds that carry text, the text runs [block[type]["rich_text"]],
    each with its ["plain_text"]. *)
Record RichText := { plain_text : str }.
Record Block := { type : str; rich_text : list RichText }.

(** The four block literals the server appends to a page. *)
Inductive NewBlock :=
| Divider
| Heading2 (content : str)
| Paragraph (content : str)
| Code (content : str) (language : str).

(** ** Remote calls, exceptions and the trace *)

Inductive Event :=
| BlocksChildrenList (block_id : str)
| BlocksChildrenAppend (block_id : str) (children : list NewBlock)
| LlmInvoke (prompt : str).

(** What a call does: it returns a value or raises an exception, which is
    kept as its message [str(e)]. *)
Inductive outcome (A : Type) :=
| Returned (a : A)
| Raised (e : str).
Arguments Returned {A} a.
Arguments Raised {A} e.

(** The collaborators: [notion.blocks.children.list], [notion.blocks.
    children.append] and [llm.invoke(...).content].  Each answer may depend
    on everything that was called before. *)
Record World := {
  notion_list : list Event -> str -> outcome (list Block);
  notion_append : list Event -> str -> list NewBlock -> outcome unit;
  llm_content : list Event -> str -> outcome str
}.

Definition Eff (A : Type) : Type := World -> list Event -> outcome A * list Event.

Definition ret {A} (a : A) : Eff A := fun _ tr => (Returned a, tr).

Definition bind {A B} (m : Eff A) (k : A -> Eff B) : Eff B :=
  fun w tr =>
    match m w tr with
    | (Returned a, tr') => k a w tr'
    | (Raised e, tr') => (Raised e, tr')
    end.

(** [try: m except Exception as e: ...]: the body's outcome, caught. *)
Definition attempt {A} (m : Eff A) : Eff (outcome A) :=
  fun w tr => let (r, tr') := m w tr in (Returned r, tr').

Declare Scope eff_scope.
Delimit Scope eff_scope with eff.
Notation "x <- m ;; k" := (bind m (fun x => k))
  (at level 61, m at next level, right associativity) : eff_scope.
Notation "m ;; k" := (bind m (fun _ => k))
  (at level 61, right associativity) : eff_scope.
Open Scope eff_scope.

Definition blocks_children_list (block_id : str) : Eff (list Block) :=
  fun w tr => (notion_list w tr block_id, tr ++ [BlocksChildrenList block_id]).

Definition blocks_children_append (block_id : str) (children : list NewBlock) : Eff unit :=
  fun w tr =>
    (notion_append w tr block_id children, tr ++ [BlocksChildrenAppend block_id children]).

Definition llm_invoke (prompt : str) : Eff str :=
  fun w tr => (llm_content w tr prompt, tr ++ [LlmInvoke prompt]).

(** ** The brain: the two LangGraph nodes and the compiled workflow *)

(** A node returns a dict from field names to values; an entry is kept with
    the type its field has in [AgentState]. *)
Inductive Entry :=
| raw_notes_is (v : str)
| refined_notes_is (v : option str)
| mermaid_code_is (v : option str)
| page_id_is (v : str).

Definition Patch := list Entry.

Definition set_field (state : AgentState.t) (entry : Entry) : AgentState.t :=
  match entry with
  | raw_notes_is v =>
      AgentState.mk v (AgentState.refined_notes state) (AgentState.mermaid_code state)
        (AgentState.page_id state)
  | refined_notes_is v =>
      AgentState.mk (AgentState.raw_notes state) v (AgentState.mermaid_code state)
        (AgentState.page_id state)
  | mermaid_code_is v =>
      AgentState.mk (AgentState.raw_notes state) (AgentState.refined_notes state) v
        (AgentState.page_id state)
  | page_id_is v =>
      AgentState.mk (AgentState.raw_notes state) (AgentState.refined_notes state)
        (AgentState.mermaid_code state) v
  end.

(** The graph merges what a node returns into the state, entry by entry. *)
Definition merge (state : AgentState.t) (patch : Patch) : AgentState.t :=
  fold_left set_field patch state.

Definition indent : str := lit "    ".

Definition rewrite_prompt (raw_notes : str) : str :=
  join [newline]
    [ [];
      lit "    Refine these raw notes into clean, structured Markdown.";
      lit "    Use headers, bullets, and bold text. Keep all information.";
      indent;
      lit "    Raw Notes:";
      indent ++ raw_notes;
      indent ].

Definition rewrite_notes_node (state : AgentState.t) : Eff Patch :=
  content <- llm_invoke (rewrite_prompt (AgentState.raw_notes state)) ;;
  ret [refined_notes_is (Some content)].

Definition fence_mermaid : str := lit "```mermaid".
Definition fence : str := lit "```".

(** [content.replace("```mermaid", "").replace("```", "").strip()] *)
Definition clean_code (content : str) : str :=
  strip (replace fence [] (replace fence_mermaid [] content)).

(** [state.refined_notes or state.raw_notes] *)
Definition diagram_content (state : AgentState.t) : str :=
  match AgentState.refined_notes state with
  | Some notes => if truthy notes then notes else AgentState.raw_notes state
  | None => AgentState.raw_notes state
  end.

Definition diagram_prompt (content : str) : str :=
  join [newline]
    [ [];
      lit "    Analyze this text and generate a Mermaid.js diagram (graph TD or sequenceDiagram)";
      lit "    that represents the system architecture or flow.";
      lit "    Return ONLY the Mermaid code, no markdown code blocks.";
      indent;
      lit "    Text:";
      indent ++ content;
      indent ].

Definition generate_diagram_node (state : AgentState.t) : Eff Patch :=
  let content := diagram_content state in
  response <- llm_invoke (diagram_prompt content) ;;
  let code := clean_code response in
  ret [mermaid_code_is (Some code)].

(** The graph: entry point [refiner], edge to [architect], edge to [END]. *)
Definition workflow : list (AgentState.t -> Eff Patch) :=
  [rewrite_notes_node; generate_diagram_node].

Fixpoint run_nodes (nodes : list (AgentState.t -> Eff Patch)) (state : AgentState.t)
  : Eff AgentState.t :=
  match nodes with
  | [] => ret state
  | node :: rest => patch <- node state ;; run_nodes rest (merge state patch)
  end.

Definition app_invoke (state : AgentState.t) : Eff AgentState.t :=
  run_nodes workflow state.

(** ** The MCP tools *)

Definition warning_sign : str := [9888%N; 65039%N].

Definition empty_page_warning : str :=
  warning_sign ++ lit " Page is empty or contains no paragraph text.".

Definition page_refined_message : str :=
  9989%N :: lit " Page refined and diagram added!".

Definition refined_notes_heading : str := 10024%N :: lit " Refined Notes".
Definition diagram_heading : str := 128202%N :: lit " Architecture Diagram".

Definition nonempty {A} (l : list A) : bool :=
  match l with
  | [] => false
  | _ :: _ => true
  end.

(** The text runs of the paragraph blocks, in page order. *)
Definition paragraph_parts (blocks : list Block) : list str :=
  flat_map
    (fun block =>
       if PyStr.eqb (type block) (lit "paragraph") && nonempty (rich_text block)
       then map plain_text (rich_text block)
       else [])
    blocks.

Definition read_paragraphs (page_id : str) : Eff str :=
  blocks <- blocks_children_list page_id ;;
  ret (join [newline] (paragraph_parts blocks)).

(** [result["refined_notes"][:2000] if result.get("refined_notes") else ""] *)
Definition refined_content (result : AgentState.t) : str :=
  match AgentState.refined_notes result with
  | Some notes => if truthy notes then slice_to 2000 notes else []
  | None => []
  end.

(** [result.get("mermaid_code", "")], whose truth value decides the append;
    [None] is as false as the empty string. *)
Definition result_mermaid_code (result : AgentState.t) : str :=
  match AgentState.mermaid_code result with
  | Some code => code
  | None => []
  end.

(** Part C of [process_research_page]: write back to Notion. *)
Definition write_back (page_id : str) (result : AgentState.t) : Eff str :=
  blocks_children_append page_id [Divider] ;;
  blocks_children_append page_id [Heading2 refined_notes_heading] ;;
  (if truthy (refined_content result)
   then blocks_children_append page_id [Paragraph (refined_content result)]
   else ret tt) ;;
  blocks_children_append page_id [Heading2 diagram_heading] ;;
  (if truthy (result_mermaid_code result)
   then blocks_children_append page_id [Code (result_mermaid_code result) (lit "mermaid")]
   else ret tt) ;;
  ret page_refined_message.

Definition process_research_page (ctx : PageContext.t) : Eff str :=
  let page_id := PageContext.page_id ctx in
  read <- attempt (read_paragraphs page_id) ;;
  match read with
  | Raised e => ret (lit "Error reading Notion: " ++ e)
  | Returned raw_text =>
      if negb (truthy (strip raw_text))
      then ret empty_page_warning
      else
        run <- attempt (app_invoke (AgentState.mk raw_text None None page_id)) ;;
        match run with
        | Raised e => ret (lit "Error running agent: " ++ e)
        | Returned result =>
            written <- attempt (write_back page_id result) ;;
            match written with
            | Raised e => ret (lit "Error writing to Notion: " ++ e)
            | Returned message => ret message
            end
        end
  end.

Definition headings : list str := [lit "heading_1"; lit "heading_2"; lit "heading_3"].

(** [int(block_type[-1])] for a block type that ends in a decimal digit. *)
Definition int_of_last (block_type : str) : nat :=
  N.to_nat (last block_type 48%N - 48).

Definition bullet : str := 8226%N :: lit " ".

Definition content_parts (blocks : list Block) : list str :=
  flat_map
    (fun block =>
       let block_type := type block in
       if PyStr.eqb block_type (lit "paragraph") && nonempty (rich_text block)
       then map plain_text (rich_text block)
       else if existsb (PyStr.eqb block_type) headings
       then
         if nonempty (rich_text block)
         then
           let header_text := concat (map plain_text (rich_text block)) in
           [[newline] ++ times (lit "#") (int_of_last block_type) ++ lit " " ++ header_text
              ++ [newline]]
         else []
       else if PyStr.eqb block_type (lit "bulleted_list_item") && nonempty (rich_text block)
       then map (fun text_item => bullet ++ plain_text text_item) (rich_text block)
       else [])
    blocks.

Definition page_empty_warning : str := warning_sign ++ lit " Page is empty.".

Definition get_page_content (ctx : PageContext.t) : Eff str :=
  let page_id := PageContext.page_id ctx in
  read <- attempt (blocks <- blocks_children_list page_id ;;
                   let raw_text_parts := content_parts blocks in
                   ret (if nonempty raw_text_parts
                        then join [newline] raw_text_parts
                        else page_empty_warning)) ;;
  match read with
  | Raised e => ret (lit "Error reading Notion: " ++ e)
  | Returned text => ret text
  end.

Definition no_diagrams_warning : str :=
  warning_sign ++ lit " No diagrams provided to combine.".

Definition diagram_section (d : DiagramInput.t) : str :=
  lit "### " ++ DiagramInput.label d ++ [newline] ++ fence_mermaid ++ [newline]
    ++ DiagramInput.mermaid_code d ++ [newline] ++ fence.

Definition combine_prompt (ctx : CombineDiagramsContext.t) : str :=
  let diagrams := CombineDiagramsContext.diagrams ctx in
  let diagrams_text := join [newline; newline] (map diagram_section diagrams) in
  join [newline]
    [ [];
      lit "    You are an expert at creating Mermaid.js architecture diagrams.";
      indent;
      lit "    I have " ++ of_nat (List.length diagrams)
        ++ lit " separate architecture diagrams that I need you to combine ";
      lit "    into ONE unified system architecture diagram titled " ++ [dquote]
        ++ CombineDiagramsContext.title ctx ++ [dquote] ++ lit ".";
      indent;
      lit "    Requirements:";
      lit "    1. Create a single cohesive graph TD diagram";
      lit "    2. Group each original diagram as a named subgraph";
      lit "    3. Identify logical connections BETWEEN the different systems";
      lit "    4. Use consistent styling and clear node names";
      lit "    5. Add a main title subgraph wrapping everything";
      lit "    6. Keep node labels concise but descriptive";
      lit "    7. Return ONLY the Mermaid code, no markdown blocks or explanations";
      indent;
      lit "    Here are the diagrams to combine:";
      indent;
      indent ++ diagrams_text;
      indent;
      lit "    Generate the combined Mermaid diagram:";
      indent ].

Definition combine_architecture_diagrams (ctx : CombineDiagramsContext.t) : Eff str :=
  match CombineDiagramsContext.diagrams ctx with
  | [] => ret no_diagrams_warning
  | [d] => ret (DiagramInput.mermaid_code d)
  | _ :: _ :: _ =>
      merged <- attempt (response <- llm_invoke (combine_prompt ctx) ;;
                         ret (clean_code response)) ;;
      match merged with
      | Raised e => ret (lit "Error combining diagrams: " ++ e)
      | Returned code => ret code
      end
  end.

(** ** The HTTP API *)

(** A handler either returns a JSON object, sent with status 200, or raises
    an [HTTPException], sent with its status code and detail. *)
Inductive HttpResponse :=
| Http200 (body : list (str * str))
| HTTPException (status_code : nat) (detail : str).

Definition error_prefix : str := lit "Error".

Definition get_content (page_id : str) : Eff HttpResponse :=
  result <- get_page_content (PageContext.mk page_id) ;;
  ret (if startswith error_prefix result
       then HTTPException 400 result
       else Http200 [(lit "page_id", page_id); (lit "content", result)]).

Definition process_page (page_id : str) : Eff HttpResponse :=
  result <- process_research_page (PageContext.mk page_id) ;;
  ret (if startswith error_prefix result
       then HTTPException 400 result
       else Http200 [(lit "page_id", page_id); (lit "result", result)]).

Definition combine_diagrams (request : CombineDiagramsContext.t) : Eff HttpResponse :=
  result <- combine_architecture_diagrams request ;;
  ret (if startswith error_prefix result
       then HTTPException 400 result
       else Http200 [(lit "title", CombineDiagramsContext.title request);
                     (lit "combined_diagram", result)]).

(** The status code a response is sent with. *)
Definition status_of (r : HttpResponse) : nat :=
  match r with
  | Http200 _ => 200
  | HTTPException status_code _ => status_code
  end.

(** ** Reading a trace *)

(** The blocks of the append calls of a trace, call by call. *)
Definition appended (tr : list Event) : list (list NewBlock) :=
  flat_map
    (fun ev =>
       match ev with
       | BlocksChildrenAppend _ children => [children]
       | _ => []
       end)
    tr.

(** The contents of the paragraph blocks a trace appends. *)
Definition paragraphs_written (tr : list Event) : list str :=
  flat_map
    (fun block =>
       match block with
       | Paragraph content => [content]
       | _ => []
       end)
    (concat (appended tr)).

(** The children of the append calls of [write_back], in the order of the
    source: the paragraph and the code block are appended only under their
    [if]. *)
Definition write_back_blocks (result : AgentState.t) : list (list NewBlock) :=
  [[Divider]; [Heading2 refined_notes_heading]]
    ++ (if truthy (refined_content result)
        then [[Paragraph (refined_content result)]]
        else [])
    ++ [[Heading2 diagram_heading]]
    ++ (if truthy (result_mermaid_code result)
        then [[Code (result_mermaid_code result) (lit "mermaid")]]
        else []).

(** One append call after the other, until one raises. *)
Fixpoint append_each (page_id : str) (calls : list (list NewBlock)) : Eff unit :=
  match calls with
  | [] => ret tt
  | children :: rest =>
      blocks_children_append page_id children ;; append_each page_id rest
  end.

(** How a handler answers the result string of its tool. *)
Definition answers (result : str) (response : HttpResponse) : Prop :=
  (startswith error_prefix result = true <-> response = HTTPException 400 result)
  /\ (startswith error_prefix result = false <-> status_of response = 200)
  /\ (startswith error_prefix result = false ->
      exists body, response = Http200 body /\ In result (map snd body)).

(** ** Sample collaborators, for running the model on concrete inputs *)

(** A store that lists [blocks] and accepts every append, and a model that
    always answers [reply]. *)
Definition quiet_world (blocks : list Block) (reply : str) : World :=
  {| notion_list := fun _ _ => Returned blocks;
     notion_append := fun _ _ _ => Returned tt;
     llm_content := fun _ _ => Returned reply |}.

(** The same store with a model whose every call raises [message]. *)
Definition broken_llm_world (blocks : list Block) (message : str) : World :=
  {| notion_list := fun _ _ => Returned blocks;
     notion_append := fun _ _ _ => Returned tt;
     llm_content := fun _ _ => Raised message |}.

(** A store whose every call raises [message]. *)
Definition unreachable_store (message : str) : World :=
  {| notion_list := fun _ _ => Raised message;
     notion_append := fun _ _ _ => Raised message;
     llm_content := fun _ _ => Returned [] |}.

(** A model that answers its first call and raises on every later one. *)
Definition one_answer_world (blocks : list Block) (reply message : str) : World :=
  {| notion_list := fun _ _ => Returned blocks;
     notion_append := fun _ _ _ => Returned tt;
     llm_content := fun before _ =>
       if existsb (fun ev => match ev with LlmInvoke _ => true | _ => false end) before
       then Raised message
       else Returned reply |}.

(** A store that accepts two appends of a request and refuses the next. *)
Definition full_store (blocks : list Block) (reply message : str) : World :=
  {| notion_list := fun _ _ => Returned blocks;
     notion_append := fun before _ _ =>
       if 2 <=? List.length (appended before) then Raised message else Returned tt;
     llm_content := fun _ _ => Returned reply |}.

Definition paragraph_block (text : str) : Block :=
  {| type := lit "paragraph"; rich_text := [ {| plain_text := text |} ] |}.

Definition sample_diagrams : list DiagramInput.t :=
  [ DiagramInput.mk (lit "A") (lit "graph TD; a-->b");
    DiagramInput.mk (lit "B") (lit "graph TD; c-->d") ].

(** * Properties *)

(** ** Strings *)

Section StringFacts.

Lemma startswith_app (p r : str) : startswith p (p ++ r) = true.
Proof.
  induction p as [|c p IH]; simpl; [reflexivity|].
  now rewrite N.eqb_refl, IH.
Qed.

Lemma startswith_split (p s : str) :
  startswith p s = true -> s = p ++ skipn (List.length p) s.
Proof.
  revert s; induction p as [|c p IH]; intros s H; simpl in *; [reflexivity|].
  destruct s as [|d s]; [discriminate|].
  apply andb_true_iff in H as [Hc Hp].
  apply N.eqb_eq in Hc; subst d.
  simpl. f_equal. now apply IH.
Qed.

Lemma startswith_length (p s : str) :
  startswith p s = true -> List.length p <= List.length s.
Proof.
  intros H. apply startswith_split in H.
  apply (f_equal (@List.length char)) in H.
  rewrite length_app in H. lia.
Qed.

(** A prefix of a prefix. *)
Lemma startswith_weaken (p q s : str) :
  startswith (p ++ q) s = true -> startswith p s = true.
Proof.
  revert s; induction p as [|c p IH]; intros s H; simpl in *; [reflexivity|].
  destruct s as [|d s]; [discriminate|].
  apply andb_true_iff in H as [Hc Hp].
  rewrite Hc. simpl. now apply IH.
Qed.

(** Looking no further than the first part of a concatenation. *)
Lemma startswith_within (p s t : str) :
  List.length p <= List.length s -> startswith p (s ++ t) = startswith p s.
Proof.
  revert s; induction p as [|c p IH]; intros s H; simpl in *; [reflexivity|].
  destruct s as [|d s]; simpl in *; [lia|].
  rewrite IH by lia. reflexivity.
Qed.

Lemma contains_app_l (p a s : str) :
  contains p s = true -> contains p (a ++ s) = true.
Proof.
  intros H. induction a as [|c a IH]; simpl; [exact H|].
  simpl in IH. rewrite IH. apply orb_true_r.
Qed.

Lemma startswith_app_r (p s b : str) :
  startswith p s = true -> startswith p (s ++ b) = true.
Proof.
  revert s; induction p as [|c p IH]; intros s H; simpl in *; [reflexivity|].
  destruct s as [|d s]; [discriminate|]. simpl.
  apply andb_true_iff in H as [Hc Hp].
  rewrite Hc. simpl. now apply IH.
Qed.

Lemma contains_app_r (p s b : str) :
  contains p s = true -> contains p (s ++ b) = true.
Proof.
  induction s as [|c s IH]; simpl; intros H.
  - destruct p; [|discriminate].
    destruct b; reflexivity.
  - apply orb_true_iff in H as [H|H].
    + change (c :: s ++ b) with ((c :: s) ++ b).
      rewrite (startswith_app_r _ _ b H). reflexivity.
    + rewrite (IH H). apply orb_true_r.
Qed.

Lemma startswith_contains (p s : str) :
  startswith p s = true -> contains p s = true.
Proof.
  intros H. destruct s as [|c s]; simpl; [exact H|].
  rewrite H. reflexivity.
Qed.

(** [contains] finds exactly the occurrences. *)
Lemma contains_occurs (p s : str) :
  contains p s = true <-> exists a b, s = a ++ p ++ b.
Proof.
  split.
  - induction s as [|c s IH]; simpl; intros H.
    + destruct p; [|discriminate]. now exists [], [].
    + apply orb_true_iff in H as [H|H].
      * exists [], (skipn (List.length p) (c :: s)).
        now apply startswith_split.
      * destruct (IH H) as (a & b & E). exists (c :: a), b. now rewrite E.
  - intros (a & b & E). subst s.
    apply contains_app_l, startswith_contains, startswith_app.
Qed.

Lemma contains_weaken (p q s : str) :
  contains p s = false -> contains (p ++ q) s = false.
Proof.
  intros H. destruct (contains (p ++ q) s) eqn:E; [|reflexivity].
  apply contains_occurs in E as (a & b & E).
  assert (contains p s = true) as H'.
  { apply contains_occurs. exists a, (q ++ b). now rewrite E, <- app_assoc. }
  congruence.
Qed.

(** *** [replace] *)

Lemma replace_from_skip (old new p r : str) :
  replace_from old new (List.length p) (p ++ r) = replace_from old new 0 r.
Proof.
  induction p as [|c p IH]; simpl; [reflexivity|exact IH].
Qed.

Lemma replace_from_hit (old new r : str) :
  old <> [] ->
  replace_from old new 0 (old ++ r) = new ++ replace_from old new 0 r.
Proof.
  intros Hne. destruct old as [|c old]; [congruence|].
  change ((c :: old) ++ r) with (c :: (old ++ r)).
  cbn [replace_from].
  change (c :: old ++ r) with ((c :: old) ++ r).
  rewrite startswith_app.
  replace (List.length (c :: old) - 1) with (List.length old) by (simpl; lia).
  now rewrite replace_from_skip.
Qed.

Lemma replace_from_miss (old new s : str) (c : char) :
  startswith old (c :: s) = false ->
  replace_from old new 0 (c :: s) = c :: replace_from old new 0 s.
Proof.
  intros H. cbn [replace_from]. now rewrite H.
Qed.

(** Nothing to replace: the string is returned as it is. *)
Lemma replace_from_absent (old new s : str) :
  contains old s = false -> replace_from old new 0 s = s.
Proof.
  induction s as [|c s IH]; intros H; [reflexivity|].
  simpl in H. apply orb_false_iff in H as [H1 H2].
  rewrite replace_from_miss by exact H1.
  now rewrite IH.
Qed.

Lemma replace_absent (old new s : str) :
  old <> [] -> contains old s = false -> replace old new s = s.
Proof.
  intros Hne H. destruct old; [congruence|].
  now apply replace_from_absent.
Qed.

(** *** [strip] *)

Lemma lstrip_suffix (s : str) :
  exists a, s = a ++ lstrip s /\ forallb isspace a = true.
Proof.
  induction s as [|c s (a & E & Ha)]; simpl.
  - now exists [].
  - destruct (isspace c) eqn:Hc.
    + exists (c :: a). simpl. rewrite Hc, Ha. split; [now f_equal|reflexivity].
    + now exists [].
Qed.

Lemma rstrip_prefix (s : str) :
  exists b, s = rstrip s ++ b /\ forallb isspace b = true.
Proof.
  induction s as [|c s (b & E & Hb)]; simpl.
  - now exists [].
  - destruct (rstrip s) as [|d r] eqn:Hr.
    + destruct (isspace c) eqn:Hc.
      * exists (c :: b). simpl in *. subst b. now rewrite Hc, Hb.
      * exists b. simpl in *. subst b. now split.
    + exists b. split; [|exact Hb]. simpl. f_equal. exact E.
Qed.

Lemma lstrip_head (s : str) (c : char) (r : str) :
  lstrip s = c :: r -> isspace c = false.
Proof.
  induction s as [|d s IH]; simpl; [discriminate|].
  destruct (isspace d) eqn:Hd; [exact IH|].
  intros E. now inversion E; subst.
Qed.

Lemma lstrip_fixed (s : str) :
  match s with [] => True | c :: _ => isspace c = false end -> lstrip s = s.
Proof.
  destruct s as [|c s]; simpl; [reflexivity|]. now intros ->.
Qed.

Lemma rstrip_head (s : str) (c : char) (r : str) :
  rstrip s = c :: r -> exists s', s = c :: s'.
Proof.
  destruct s as [|d s]; simpl; [discriminate|].
  destruct (rstrip s).
  - destruct (isspace d); [discriminate|]. intros E; inversion E; subst. now exists s.
  - intros E; inversion E; subst. now exists s.
Qed.

Lemma rstrip_idem (s : str) : rstrip (rstrip s) = rstrip s.
Proof.
  induction s as [|c s IH]; simpl; [reflexivity|].
  destruct (rstrip s) as [|d r] eqn:Hr.
  - destruct (isspace c) eqn:Hc; simpl; [reflexivity|]. now rewrite Hc.
  - simpl in *. rewrite IH. reflexivity.
Qed.

Lemma strip_idem (s : str) : strip (strip s) = strip s.
Proof.
  unfold strip.
  assert (lstrip (rstrip (lstrip s)) = rstrip (lstrip s)) as ->.
  { apply lstrip_fixed.
    destruct (rstrip (lstrip s)) as [|c r] eqn:E; [exact I|].
    destruct (rstrip_head _ _ _ E) as (s' & E').
    exact (lstrip_head _ _ _ E'). }
  apply rstrip_idem.
Qed.

(** What [strip] returns is a piece of its argument. *)
Lemma strip_piece (s : str) :
  exists a b, s = a ++ strip s ++ b
              /\ forallb isspace a = true /\ forallb isspace b = true.
Proof.
  destruct (lstrip_suffix s) as (a & Ea & Ha).
  destruct (rstrip_prefix (lstrip s)) as (b & Eb & Hb).
  exists a, b. unfold strip. now rewrite <- Eb.
Qed.

Lemma contains_strip (p s : str) :
  contains p s = false -> contains p (strip s) = false.
Proof.
  intros H. destruct (contains p (strip s)) eqn:E; [|reflexivity].
  destruct (strip_piece s) as (a & b & Es & _).
  assert (contains p s = true) as H'.
  { rewrite Es. now apply contains_app_l, contains_app_r. }
  congruence.
Qed.

Lemma lstrip_spaces (s : str) : forallb isspace s = true -> lstrip s = [].
Proof.
  induction s as [|c s IH]; simpl; [reflexivity|].
  intros H. apply andb_true_iff in H as [Hc Hs].
  now rewrite Hc, (IH Hs).
Qed.

(** [strip] leaves nothing exactly when every character is white space. *)
Lemma strip_nil_iff (s : str) : strip s = [] <-> forallb isspace s = true.
Proof.
  split.
  - intros H. destruct (strip_piece s) as (a & b & E & Ha & Hb).
    rewrite H in E. rewrite E. simpl. rewrite forallb_app. now rewrite Ha, Hb.
  - intros H. unfold strip. now rewrite (lstrip_spaces _ H).
Qed.

Lemma join_spaces (sep : str) (parts : list str) :
  forallb isspace sep = true ->
  forallb (forallb isspace) parts = true ->
  forallb isspace (join sep parts) = true.
Proof.
  intros Hsep. induction parts as [|p rest IH]; [reflexivity|].
  intros H. simpl in H. apply andb_true_iff in H as [Hp Hrest].
  destruct rest as [|q rest]; [exact Hp|].
  change (join sep (p :: q :: rest)) with (p ++ sep ++ join sep (q :: rest)).
  rewrite !forallb_app, Hp, Hsep, (IH Hrest). reflexivity.
Qed.

End StringFacts.

(** ** Cleaning the model's answer *)

Section CleanCode.

Local Arguments N.eqb : simpl never.

(** [replace] follows the occurrences of [old] from the left: a proof about
    it has a case for a hit and a case for a miss. *)
Lemma replace_from_cases (old new : str) (P : str -> str -> Prop) :
  old <> [] ->
  P [] [] ->
  (forall r, P r (replace_from old new 0 r) ->
             P (old ++ r) (new ++ replace_from old new 0 r)) ->
  (forall c s, startswith old (c :: s) = false ->
               P s (replace_from old new 0 s) ->
               P (c :: s) (c :: replace_from old new 0 s)) ->
  forall s, P s (replace_from old new 0 s).
Proof.
  intros Hne Hnil Hhit Hmiss s.
  remember (List.length s) as n eqn:Hn.
  revert s Hn. induction n as [n IH] using lt_wf_ind. intros s Hn.
  destruct s as [|c s]; [exact Hnil|].
  destruct (startswith old (c :: s)) eqn:E.
  - pose proof (startswith_split _ _ E) as Es.
    rewrite Es, replace_from_hit by exact Hne.
    apply Hhit.
    apply (IH (List.length (skipn (List.length old) (c :: s)))); [|reflexivity].
    subst n. rewrite length_skipn.
    destruct old; [congruence|]. simpl. lia.
  - rewrite replace_from_miss by exact E.
    apply Hmiss; [exact E|].
    apply (IH (List.length s)); [subst n; simpl; lia|reflexivity].
Qed.

Lemma fence_nonempty : fence <> [].
Proof. discriminate. Qed.

Lemma fence_mermaid_nonempty : fence_mermaid <> [].
Proof. discriminate. Qed.

Lemma fence_mermaid_split : fence_mermaid = fence ++ lit "mermaid".
Proof. reflexivity. Qed.

(** After the fences are taken out, what is left begins with fewer
    backticks than a fence has. *)
Lemma fence_not_at_head (s : str) :
  startswith fence (replace_from fence [] 0 s) = false.
Proof.
  enough (startswith fence (replace_from fence [] 0 s) = false
          /\ (startswith [backtick; backtick] s = false ->
              startswith [backtick; backtick] (replace_from fence [] 0 s) = false)
          /\ (startswith [backtick] s = false ->
              startswith [backtick] (replace_from fence [] 0 s) = false)) as H
      by apply H.
  apply replace_from_cases with (P := fun s r =>
    startswith fence r = false
    /\ (startswith [backtick; backtick] s = false ->
        startswith [backtick; backtick] r = false)
    /\ (startswith [backtick] s = false -> startswith [backtick] r = false)).
  - exact fence_nonempty.
  - repeat split; reflexivity.
  - intros r (H1 & _ & _). repeat split; [exact H1|discriminate|discriminate].
  - intros c r Hmiss (H1 & H2 & H3).
    unfold fence, backtick in *. simpl in *.
    destruct (N.eqb_spec 96 c) as [<-|Hc]; simpl in *.
    + repeat split.
      * apply H2, Hmiss.
      * intros Hs. apply H3, Hs.
      * discriminate.
    + repeat split; reflexivity.
Qed.

(** No fence is left after [replace("```", "")]. *)
Lemma fence_gone (s : str) :
  contains fence (replace_from fence [] 0 s) = false.
Proof.
  apply replace_from_cases with (P := fun s r => contains fence r = false).
  - exact fence_nonempty.
  - reflexivity.
  - intros r H. exact H.
  - intros c r Hmiss H.
    cbn [contains]. rewrite H, orb_false_r.
    rewrite <- (replace_from_miss _ [] _ _ Hmiss).
    apply fence_not_at_head.
Qed.

Lemma clean_code_no_fence (s : str) : contains fence (clean_code s) = false.
Proof.
  unfold clean_code. apply contains_strip.
  unfold replace at 1. change fence with (lit "```") at 1. cbn [lit map list_ascii_of_string].
  apply fence_gone.
Qed.

(** Text without a fence only loses the white space around it. *)
Lemma clean_code_plain (s : str) :
  contains fence s = false -> clean_code s = strip s.
Proof.
  intros H. unfold clean_code.
  rewrite (replace_absent _ [] _ fence_mermaid_nonempty).
  - now rewrite (replace_absent _ [] _ fence_nonempty).
  - rewrite fence_mermaid_split. now apply contains_weaken.
Qed.

Lemma clean_code_idem (s : str) : clean_code (clean_code s) = clean_code s.
Proof.
  rewrite (clean_code_plain _ (clean_code_no_fence s)).
  unfold clean_code. apply strip_idem.
Qed.

(** The closing fence does not complete a ["```mermaid"]. *)
Lemma no_fence_mermaid_before_close (inner : str) :
  contains fence inner = false ->
  contains fence_mermaid (inner ++ fence) = false.
Proof.
  induction inner as [|c inner IH]; intros H; [reflexivity|].
  cbn [contains] in H. apply orb_false_iff in H as [Hhead Hrest].
  change ((c :: inner) ++ fence) with (c :: (inner ++ fence)).
  cbn [contains]. rewrite (IH Hrest), orb_false_r.
  change (c :: inner ++ fence) with ((c :: inner) ++ fence).
  destruct (startswith fence_mermaid ((c :: inner) ++ fence)) eqn:E; [|reflexivity].
  exfalso.
  destruct (le_lt_dec (List.length fence) (List.length (c :: inner))) as [Hlen|Hlen].
  - rewrite fence_mermaid_split in E. apply startswith_weaken in E.
    rewrite startswith_within in E by exact Hlen. congruence.
  - apply startswith_length in E. rewrite length_app in E.
    change (List.length fence_mermaid) with 10 in E.
    change (List.length fence) with 3 in *. lia.
Qed.

(** Taking the fences out of [inner ++ "```"] gives [inner] back when
    [inner] has no fence of its own. *)
Lemma replace_fence_close (inner : str) :
  contains fence inner = false ->
  replace_from fence [] 0 (inner ++ fence) = inner.
Proof.
  induction inner as [|c inner IH]; intros H; [reflexivity|].
  cbn [contains] in H. apply orb_false_iff in H as [Hhead Hrest].
  destruct (startswith fence ((c :: inner) ++ fence)) eqn:E.
  - destruct (le_lt_dec (List.length fence) (List.length (c :: inner))) as [Hlen|Hlen].
    + rewrite startswith_within in E by exact Hlen. congruence.
    + change (List.length fence) with 3 in Hlen.
      destruct inner as [|d [|e inner]]; [| |simpl in Hlen; lia].
      * unfold fence in E. cbn in E.
        destruct (N.eqb_spec 96 c) as [<-|]; [reflexivity|discriminate].
      * unfold fence in E. cbn in E.
        destruct (N.eqb_spec 96 c) as [<-|]; [|discriminate].
        destruct (N.eqb_spec 96 d) as [<-|]; [reflexivity|discriminate].
  - change ((c :: inner) ++ fence) with (c :: (inner ++ fence)) in *.
    rewrite replace_from_miss by exact E.
    now rewrite (IH Hrest).
Qed.

(** ["```mermaid" + inner + "```"] *)
Lemma clean_code_wrapped_mermaid (inner : str) :
  contains fence inner = false ->
  clean_code (fence_mermaid ++ inner ++ fence) = strip inner.
Proof.
  intros H. unfold clean_code. f_equal.
  unfold replace at 2. change fence_mermaid with (96%N :: List.tl fence_mermaid) at 1.
  cbv iota. change (96%N :: List.tl fence_mermaid) with fence_mermaid.
  rewrite (replace_from_hit _ [] _ fence_mermaid_nonempty). simpl app at 1.
  rewrite (replace_from_absent _ _ _ (no_fence_mermaid_before_close _ H)).
  unfold replace. change fence with (96%N :: List.tl fence) at 1. cbv iota.
  change (96%N :: List.tl fence) with fence.
  now apply replace_fence_close.
Qed.

(** A closing fence after [s] does not complete a ["```mermaid"] that
    begins in [s]: the characters it would supply are letters. *)
Lemma fence_mermaid_not_completed (s : str) :
  startswith fence_mermaid s = false ->
  startswith fence_mermaid (s ++ fence) = false.
Proof.
  intros Hs.
  destruct (startswith fence_mermaid (s ++ fence)) eqn:E; [|reflexivity].
  exfalso.
  destruct (le_lt_dec (List.length fence_mermaid) (List.length s)) as [Hlen|Hlen].
  - rewrite startswith_within in E by exact Hlen. congruence.
  - pose proof (startswith_length _ _ E) as Hmin. rewrite length_app in Hmin.
    change (List.length fence_mermaid) with 10 in *.
    change (List.length fence) with 3 in *.
    destruct s as [|a1 [|a2 [|a3 [|a4 [|a5 [|a6 [|a7 rest]]]]]]];
      try (cbn in Hmin; lia).
    unfold fence_mermaid, fence in E.
    destruct rest as [|b1 [|b2 [|b3 rest]]]; [| | |cbn in Hlen; lia];
      cbn [lit map list_ascii_of_string N_of_ascii app startswith] in E;
      repeat (apply andb_true_iff in E; destruct E as [? E]);
      repeat match goal with
        | H : N.eqb _ _ = true |- _ => apply N.eqb_eq in H; try discriminate H
        end.
Qed.

Lemma fence_mermaid_absent_before_close (s : str) :
  contains fence_mermaid s = false ->
  contains fence_mermaid (s ++ fence) = false.
Proof.
  induction s as [|c s IH]; intros H; [reflexivity|].
  cbn [contains] in H. apply orb_false_iff in H as [Hhead Hrest].
  change ((c :: s) ++ fence) with (c :: (s ++ fence)).
  cbn [contains]. rewrite (IH Hrest), orb_false_r.
  change (c :: s ++ fence) with ((c :: s) ++ fence).
  now apply fence_mermaid_not_completed.
Qed.

(** ["```" + inner + "```"] *)
Lemma clean_code_wrapped_bare (inner : str) :
  contains fence inner = false ->
  contains fence_mermaid (fence ++ inner) = false ->
  clean_code (fence ++ inner ++ fence) = strip inner.
Proof.
  intros H Hopen.
  assert (contains fence_mermaid (fence ++ inner ++ fence) = false) as Habs.
  { rewrite app_assoc. now apply fence_mermaid_absent_before_close. }
  unfold clean_code. f_equal.
  rewrite (replace_absent _ [] _ fence_mermaid_nonempty Habs).
  unfold replace. change fence with (96%N :: List.tl fence) at 1. cbv iota.
  change (96%N :: List.tl fence) with fence.
  rewrite (replace_from_hit _ [] _ fence_nonempty). simpl app at 1.
  now apply replace_fence_close.
Qed.

End CleanCode.

(** C7 (as amended): cleaning the model's answer is idempotent; a string
    without fence markers comes back with the white space around it
    stripped, and unchanged when there is none to strip; a string wrapped
    as ["```mermaid" + inner + "```"] whose inner text has no fence marker,
    or as ["```" + inner + "```"] whose inner text has no fence marker and
    does not make a ["```mermaid"] with the opening fence, yields the inner
    text with the white space around it stripped. *)
Theorem clean_code_fences :
  (forall s, clean_code (clean_code s) = clean_code s)
  /\ (forall s, contains fence s = false -> clean_code s = strip s)
  /\ (forall s, contains fence s = false -> strip s = s -> clean_code s = s)
  /\ (forall inner, contains fence inner = false ->
        clean_code (fence_mermaid ++ inner ++ fence) = strip inner)
  /\ (forall inner, contains fence inner = false ->
        contains fence_mermaid (fence ++ inner) = false ->
        clean_code (fence ++ inner ++ fence) = strip inner).
Proof.
  split; [exact clean_code_idem|].
  split; [exact clean_code_plain|].
  split; [|split; [exact clean_code_wrapped_mermaid|exact clean_code_wrapped_bare]].
  intros s Hs Hfix. now rewrite (clean_code_plain _ Hs).
Qed.

Lemma clean_code_fences_witness :
  clean_code (clean_code (lit "```mermaid graph TD ```")) = lit "graph TD"
  /\ clean_code (lit " graph TD") = lit "graph TD"
  /\ clean_code (lit "graph TD") = lit "graph TD"
  /\ clean_code (fence_mermaid ++ [newline] ++ lit "graph TD" ++ [newline] ++ fence)
     = lit "graph TD"
  /\ clean_code (fence ++ [newline] ++ lit "graph TD" ++ [newline] ++ fence)
     = lit "graph TD"
  /\ clean_code (fence ++ lit "a`b" ++ fence) = lit "a`b".
Proof.
  destruct clean_code_fences as (Hidem & Hplain & Hfixed & Hmermaid & Hbare).
  split; [rewrite (Hidem (lit "```mermaid graph TD ```")); reflexivity|].
  split; [rewrite (Hplain (lit " graph TD")); reflexivity|].
  split; [rewrite (Hfixed (lit "graph TD")); reflexivity|].
  split.
  - change (fence_mermaid ++ [newline] ++ lit "graph TD" ++ [newline] ++ fence)
      with (fence_mermaid ++ ([newline] ++ lit "graph TD" ++ [newline]) ++ fence).
    rewrite (Hmermaid ([newline] ++ lit "graph TD" ++ [newline])); reflexivity.
  - split.
    + change (fence ++ [newline] ++ lit "graph TD" ++ [newline] ++ fence)
        with (fence ++ ([newline] ++ lit "graph TD" ++ [newline]) ++ fence).
      rewrite (Hbare ([newline] ++ lit "graph TD" ++ [newline])); reflexivity.
    + rewrite (Hbare (lit "a`b")); reflexivity.
Defined.

(** C7 as it was stated fails: text without a fence marker is not always
    returned unchanged, and the text between two fences is not always
    returned exactly. *)
Lemma clean_code_strips_plain_text :
  ~ (forall s, contains fence s = false -> contains fence_mermaid s = false ->
               clean_code s = s)
  /\ ~ (forall inner, clean_code (fence_mermaid ++ inner ++ fence) = inner).
Proof.
  split.
  - intros H. specialize (H (lit " graph TD") eq_refl eq_refl). discriminate H.
  - intros H. specialize (H ([newline] ++ lit "graph TD" ++ [newline])).
    discriminate H.
Qed.

(** ** The diagram merge *)

Ltac run_eff :=
  unfold bind, attempt, ret, llm_invoke, blocks_children_list, blocks_children_append;
  cbn beta iota.

(** C1: with no diagram the merge returns the "no diagrams" warning, with
    one diagram it returns that diagram's code as it is; in both cases the
    trace is left as it was, so the model is not called. *)
Theorem combine_short_circuit (title : str) (w : World) (tr : list Event) :
  combine_architecture_diagrams (CombineDiagramsContext.mk [] title) w tr
  = (Returned no_diagrams_warning, tr)
  /\ forall d : DiagramInput.t,
       combine_architecture_diagrams (CombineDiagramsContext.mk [d] title) w tr
       = (Returned (DiagramInput.mermaid_code d), tr).
Proof.
  split; [reflexivity|]. intros d. reflexivity.
Qed.

(** The merge always returns a string, whatever the model does. *)
Lemma combine_returns (ctx : CombineDiagramsContext.t) (w : World) (tr : list Event) :
  exists result tr', combine_architecture_diagrams ctx w tr = (Returned result, tr').
Proof.
  unfold combine_architecture_diagrams.
  destruct (CombineDiagramsContext.diagrams ctx) as [|d1 [|d2 rest]].
  - now eexists _, _.
  - now eexists _, _.
  - run_eff. destruct (llm_content w tr (combine_prompt ctx)); now eexists _, _.
Qed.

(** C10: the merge never raises; with two or more diagrams a failure of the
    model call is turned into a string that begins with "Error combining
    diagrams", and the HTTP handler answers it with status 400. *)
Theorem combine_catches_model_failure (w : World) (tr : list Event) :
  (forall ctx, exists result tr',
      combine_architecture_diagrams ctx w tr = (Returned result, tr'))
  /\ forall d1 d2 rest title e,
       let ctx := CombineDiagramsContext.mk (d1 :: d2 :: rest) title in
       llm_content w tr (combine_prompt ctx) = Raised e ->
       exists result,
         combine_architecture_diagrams ctx w tr
         = (Returned result, tr ++ [LlmInvoke (combine_prompt ctx)])
         /\ result = lit "Error combining diagrams: " ++ e
         /\ startswith (lit "Error combining diagrams") result = true
         /\ combine_diagrams ctx w tr
            = (Returned (HTTPException 400 result), tr ++ [LlmInvoke (combine_prompt ctx)]).
Proof.
  split; [intros ctx; apply combine_returns|].
  intros d1 d2 rest title e ctx He.
  exists (lit "Error combining diagrams: " ++ e).
  unfold combine_diagrams, combine_architecture_diagrams.
  cbn [CombineDiagramsContext.diagrams ctx]. run_eff.
  fold ctx. rewrite He.
  repeat split; reflexivity.
Qed.

Lemma combine_catches_model_failure_witness :
  let ctx := CombineDiagramsContext.mk sample_diagrams (lit "Unified Architecture") in
  let w := broken_llm_world [] (lit "timed out") in
  llm_content w [] (combine_prompt ctx) = Raised (lit "timed out")
  /\ exists result,
       combine_architecture_diagrams ctx w []
       = (Returned result, [] ++ [LlmInvoke (combine_prompt ctx)])
       /\ result = lit "Error combining diagrams: " ++ lit "timed out"
       /\ startswith (lit "Error combining diagrams") result = true
       /\ combine_diagrams ctx w []
          = (Returned (HTTPException 400 result), [] ++ [LlmInvoke (combine_prompt ctx)]).
Proof.
  intros ctx w. split; [reflexivity|].
  apply (proj2 (combine_catches_model_failure w [])
           (DiagramInput.mk (lit "A") (lit "graph TD; a-->b"))
           (DiagramInput.mk (lit "B") (lit "graph TD; c-->d"))
           [] (lit "Unified Architecture") (lit "timed out")).
  reflexivity.
Defined.

(** ** The pipeline *)

(** C4 (as amended): the diagram step reads [refined_notes] when it is
    present and not empty, and [raw_notes] otherwise; its one model call is
    made with the prompt built from that text; for raw notes "X" and
    refined notes "Y" the text is "Y". *)
Theorem diagram_step_input :
  (forall state notes,
      AgentState.refined_notes state = Some notes -> notes <> [] ->
      diagram_content state = notes)
  /\ (forall state,
        AgentState.refined_notes state = None
        \/ AgentState.refined_notes state = Some [] ->
        diagram_content state = AgentState.raw_notes state)
  /\ (forall state w tr,
        snd (generate_diagram_node state w tr)
        = tr ++ [LlmInvoke (diagram_prompt (diagram_content state))])
  /\ (forall page_id mermaid_code,
        diagram_content (AgentState.mk (lit "X") (Some (lit "Y")) mermaid_code page_id)
        = lit "Y").
Proof.
  repeat split.
  - intros state notes H Hne. unfold diagram_content. rewrite H.
    destruct notes; [congruence|reflexivity].
  - intros state [H|H]; unfold diagram_content; now rewrite H.
  - intros state w tr. unfold generate_diagram_node. run_eff.
    now destruct (llm_content w tr (diagram_prompt (diagram_content state))).
Qed.

Lemma diagram_step_input_witness :
  diagram_content (AgentState.mk (lit "raw") (Some (lit "refined")) None (lit "p"))
  = lit "refined"
  /\ diagram_content (AgentState.mk (lit "raw") (Some []) None (lit "p")) = lit "raw"
  /\ diagram_content (AgentState.mk (lit "raw") None None (lit "p")) = lit "raw".
Proof.
  destruct diagram_step_input as (Hset & Hunset & _ & _).
  split; [|split].
  - apply (Hset (AgentState.mk (lit "raw") (Some (lit "refined")) None (lit "p"))
             (lit "refined")); [reflexivity|discriminate].
  - apply (Hunset (AgentState.mk (lit "raw") (Some []) None (lit "p"))).
    right. reflexivity.
  - apply (Hunset (AgentState.mk (lit "raw") None None (lit "p"))).
    left. reflexivity.
Defined.

(** C4 as it was stated fails: refined notes that are present but empty are
    passed over, and the diagram step reads the raw notes. *)
Lemma diagram_step_skips_empty_refined_notes :
  ~ (forall state notes,
        AgentState.refined_notes state = Some notes -> diagram_content state = notes).
Proof.
  intros H.
  specialize (H (AgentState.mk (lit "X") (Some []) None (lit "p")) [] eq_refl).
  discriminate H.
Qed.

(** What the two nodes return sets a field and clears none. *)
Lemma workflow_patches (node : AgentState.t -> Eff Patch) (state : AgentState.t)
      (w : World) (tr : list Event) (patch : Patch) (tr' : list Event) :
  In node workflow ->
  node state w tr = (Returned patch, tr') ->
  exists v, patch = [refined_notes_is (Some v)] \/ patch = [mermaid_code_is (Some v)].
Proof.
  intros [<-|[<-|[]]].
  - unfold rewrite_notes_node. run_eff.
    destruct (llm_content w tr (rewrite_prompt (AgentState.raw_notes state)))
      as [notes|e]; [|discriminate].
    intros H. inversion H; subst. exists notes. now left.
  - unfold generate_diagram_node. run_eff.
    destruct (llm_content w tr (diagram_prompt (diagram_content state)))
      as [response|e]; [|discriminate].
    intros H. inversion H; subst. exists (clean_code response). now right.
Qed.

Lemma app_invoke_steps (state : AgentState.t) (w : World) (tr : list Event)
      (result : AgentState.t) (tr' : list Event) :
  app_invoke state w tr = (Returned result, tr') ->
  exists notes response,
    llm_content w tr (rewrite_prompt (AgentState.raw_notes state)) = Returned notes
    /\ let refined :=
         AgentState.mk (AgentState.raw_notes state) (Some notes)
           (AgentState.mermaid_code state) (AgentState.page_id state) in
       let tr1 := tr ++ [LlmInvoke (rewrite_prompt (AgentState.raw_notes state))] in
       llm_content w tr1 (diagram_prompt (diagram_content refined)) = Returned response
       /\ run_nodes [rewrite_notes_node] state w tr = (Returned refined, tr1)
       /\ run_nodes [generate_diagram_node] refined w tr1 = (Returned result, tr')
       /\ result = AgentState.mk (AgentState.raw_notes state) (Some notes)
                     (Some (clean_code response)) (AgentState.page_id state)
       /\ tr' = tr1 ++ [LlmInvoke (diagram_prompt (diagram_content refined))].
Proof.
  unfold app_invoke, workflow. cbn [run_nodes].
  unfold rewrite_notes_node, generate_diagram_node. run_eff.
  destruct (llm_content w tr (rewrite_prompt (AgentState.raw_notes state)))
    as [notes|e] eqn:E1; [|discriminate].
  cbn [merge fold_left set_field].
  match goal with
  | |- context [llm_content w ?t ?p] => destruct (llm_content w t p) as [response|e] eqn:E2
  end; [|discriminate].
  cbn [merge fold_left set_field AgentState.raw_notes AgentState.refined_notes
       AgentState.mermaid_code AgentState.page_id].
  intros H. inversion H; subst. clear H.
  exists notes, response. cbn zeta.
  split; [reflexivity|].
  rewrite E2.
  repeat split; reflexivity.
Qed.

(** C8: a fresh state has neither refined notes nor diagram code; the
    refiner returns only [refined_notes] and the diagram step only
    [mermaid_code]; merging what a node of the graph returns never clears
    a field that is set; so after the refiner the notes are set and the code is not, and
    after the diagram step both are set, the notes being the same. *)
Theorem pipeline_state_invariant (w : World) (tr : list Event) :
  (forall state patch tr',
      rewrite_notes_node state w tr = (Returned patch, tr') ->
      exists notes,
        patch = [refined_notes_is (Some notes)]
        /\ merge state patch
           = AgentState.mk (AgentState.raw_notes state) (Some notes)
               (AgentState.mermaid_code state) (AgentState.page_id state))
  /\ (forall state patch tr',
        generate_diagram_node state w tr = (Returned patch, tr') ->
        exists code,
          patch = [mermaid_code_is (Some code)]
          /\ merge state patch
             = AgentState.mk (AgentState.raw_notes state) (AgentState.refined_notes state)
                 (Some code) (AgentState.page_id state))
  /\ (forall node state patch tr0 tr',
        In node workflow ->
        node state w tr0 = (Returned patch, tr') ->
        (AgentState.refined_notes state <> None ->
         AgentState.refined_notes (merge state patch) <> None)
        /\ (AgentState.mermaid_code state <> None ->
            AgentState.mermaid_code (merge state patch) <> None))
  /\ (forall raw_text page_id result tr',
        app_invoke (AgentState.mk raw_text None None page_id) w tr = (Returned result, tr') ->
        exists notes code tr1,
          run_nodes [rewrite_notes_node] (AgentState.mk raw_text None None page_id) w tr
          = (Returned (AgentState.mk raw_text (Some notes) None page_id), tr1)
          /\ run_nodes [generate_diagram_node]
               (AgentState.mk raw_text (Some notes) None page_id) w tr1
             = (Returned result, tr')
          /\ result = AgentState.mk raw_text (Some notes) (Some code) page_id).
Proof.
  split; [|split; [|split]].
  - intros state patch tr'. unfold rewrite_notes_node. run_eff.
    destruct (llm_content w tr (rewrite_prompt (AgentState.raw_notes state)))
      as [notes|e]; [|discriminate].
    intros H. inversion H; subst. now exists notes.
  - intros state patch tr'. unfold generate_diagram_node. run_eff.
    destruct (llm_content w tr (diagram_prompt (diagram_content state)))
      as [response|e]; [|discriminate].
    intros H. inversion H; subst. now exists (clean_code response).
  - intros node state patch tr0 tr' Hin Hrun.
    destruct (workflow_patches _ _ _ _ _ _ Hin Hrun) as (v & [->| ->]);
      cbn; split; intros H; try exact H; discriminate.
  - intros raw_text page_id result tr' H.
    destruct (app_invoke_steps _ _ _ _ _ H) as (notes & response & _ & _ & H1 & H2 & H3 & _).
    cbn [AgentState.raw_notes AgentState.mermaid_code AgentState.page_id] in H1, H2, H3.
    exists notes, (clean_code response), (tr ++ [LlmInvoke (rewrite_prompt raw_text)]).
    repeat split; [exact H1|exact H2|exact H3].
Qed.

Lemma pipeline_state_invariant_witness :
  let w := quiet_world [] (lit "graph TD; a-->b") in
  let fresh := AgentState.mk (lit "Hello") None None (lit "p") in
  exists notes code tr1,
    run_nodes [rewrite_notes_node] fresh w []
    = (Returned (AgentState.mk (lit "Hello") (Some notes) None (lit "p")), tr1)
    /\ run_nodes [generate_diagram_node]
         (AgentState.mk (lit "Hello") (Some notes) None (lit "p")) w tr1
       = (app_invoke fresh w [])
    /\ fst (app_invoke fresh w [])
       = Returned (AgentState.mk (lit "Hello") (Some notes) (Some code) (lit "p")).
Proof.
  intros w fresh.
  destruct (proj2 (proj2 (proj2 (pipeline_state_invariant w [])))
              (lit "Hello") (lit "p")
              (AgentState.mk (lit "Hello") (Some (lit "graph TD; a-->b"))
                 (Some (lit "graph TD; a-->b")) (lit "p"))
              (snd (app_invoke fresh w [])) eq_refl)
    as (notes & code & tr1 & H1 & H2 & H3).
  exists notes, code, tr1.
  split; [exact H1|]. split; [exact H2|].
  inversion H3; subst. reflexivity.
Defined.

(** ** Processing a page *)

Lemma bind_attempt {A B} (m : Eff A) (k : outcome A -> Eff B) (w : World) (tr : list Event) :
  bind (attempt m) k w tr = k (fst (m w tr)) w (snd (m w tr)).
Proof.
  unfold bind, attempt. now destruct (m w tr).
Qed.

Lemma read_paragraphs_run (page_id : str) (w : World) (tr : list Event) :
  read_paragraphs page_id w tr
  = (match notion_list w tr page_id with
     | Returned blocks => Returned (join [newline] (paragraph_parts blocks))
     | Raised e => Raised e
     end, tr ++ [BlocksChildrenList page_id]).
Proof.
  unfold read_paragraphs. run_eff. now destruct (notion_list w tr page_id).
Qed.

(** A page whose paragraph text is blank: the warning, after the one read. *)
Lemma process_blank (ctx : PageContext.t) (w : World) (tr : list Event) (blocks : list Block) :
  notion_list w tr (PageContext.page_id ctx) = Returned blocks ->
  strip (join [newline] (paragraph_parts blocks)) = [] ->
  process_research_page ctx w tr
  = (Returned empty_page_warning, tr ++ [BlocksChildrenList (PageContext.page_id ctx)]).
Proof.
  intros Hlist Hblank. unfold process_research_page.
  rewrite bind_attempt, read_paragraphs_run, Hlist.
  cbn [fst snd]. rewrite Hblank. reflexivity.
Qed.

Lemma paragraph_parts_unrecognized (blocks : list Block) :
  Forall (fun block => PyStr.eqb (type block) (lit "paragraph") = false) blocks ->
  paragraph_parts blocks = [].
Proof.
  induction 1 as [|block blocks Hb _ IH]; [reflexivity|].
  change (paragraph_parts (block :: blocks))
    with ((if PyStr.eqb (type block) (lit "paragraph") && nonempty (rich_text block)
           then map plain_text (rich_text block)
           else []) ++ paragraph_parts blocks).
  now rewrite Hb, IH.
Qed.

Lemma paragraph_parts_spaces (blocks : list Block) :
  (forall block text_item,
      In block blocks -> PyStr.eqb (type block) (lit "paragraph") = true ->
      In text_item (rich_text block) ->
      forallb isspace (plain_text text_item) = true) ->
  forallb (forallb isspace) (paragraph_parts blocks) = true.
Proof.
  induction blocks as [|block blocks IH]; intros H; [reflexivity|].
  change (paragraph_parts (block :: blocks))
    with ((if PyStr.eqb (type block) (lit "paragraph") && nonempty (rich_text block)
           then map plain_text (rich_text block)
           else []) ++ paragraph_parts blocks).
  rewrite forallb_app. apply andb_true_iff.
  split; [|apply IH; intros b t Hb; apply H; now right].
  destruct (PyStr.eqb (type block) (lit "paragraph")) eqn:Ht; [|reflexivity].
  destruct (nonempty (rich_text block)); [|reflexivity]. cbn [andb].
  apply forallb_forall. intros text Hin.
  apply in_map_iff in Hin as (text_item & <- & Hin).
  apply (H block text_item); [now left|exact Ht|exact Hin].
Qed.

(** C5: when the extraction gives the empty text, as it does for a page
    with no blocks or with no paragraph block, [process_research_page]
    returns the empty-content warning, which is not an error string; the
    only call made is the read, so the pipeline does not start and nothing
    is appended. *)
Theorem empty_page_warned (ctx : PageContext.t) (w : World) (tr : list Event)
        (blocks : list Block) :
  notion_list w tr (PageContext.page_id ctx) = Returned blocks ->
  join [newline] (paragraph_parts blocks) = []
  \/ blocks = []
  \/ Forall (fun block => PyStr.eqb (type block) (lit "paragraph") = false) blocks ->
  process_research_page ctx w tr
  = (Returned empty_page_warning, tr ++ [BlocksChildrenList (PageContext.page_id ctx)])
  /\ startswith error_prefix empty_page_warning = false
  /\ process_page (PageContext.page_id ctx) w tr
     = (Returned (Http200 [(lit "page_id", PageContext.page_id ctx);
                           (lit "result", empty_page_warning)]),
        tr ++ [BlocksChildrenList (PageContext.page_id ctx)]).
Proof.
  intros Hlist Hempty.
  assert (join [newline] (paragraph_parts blocks) = []) as Htext.
  { destruct Hempty as [H|[H|H]]; [exact H|now subst|].
    now rewrite (paragraph_parts_unrecognized _ H). }
  assert (process_research_page ctx w tr
          = (Returned empty_page_warning,
             tr ++ [BlocksChildrenList (PageContext.page_id ctx)])) as Hrun
      by (apply (process_blank _ _ _ _ Hlist); now rewrite Htext).
  split; [exact Hrun|]. split; [reflexivity|].
  unfold process_page, bind. destruct ctx as [page_id]. cbn [PageContext.page_id] in *.
  rewrite Hrun. reflexivity.
Qed.

(** C9: when every text run of the paragraph blocks is white space only,
    [process_research_page] returns the empty-content warning after the one
    read, as for an empty page. *)
Theorem blank_page_warned (ctx : PageContext.t) (w : World) (tr : list Event)
        (blocks : list Block) :
  notion_list w tr (PageContext.page_id ctx) = Returned blocks ->
  (forall block text_item,
      In block blocks -> PyStr.eqb (type block) (lit "paragraph") = true ->
      In text_item (rich_text block) ->
      forallb isspace (plain_text text_item) = true) ->
  process_research_page ctx w tr
  = (Returned empty_page_warning, tr ++ [BlocksChildrenList (PageContext.page_id ctx)]).
Proof.
  intros Hlist Hspaces.
  apply (process_blank _ _ _ _ Hlist).
  apply strip_nil_iff, join_spaces; [reflexivity|].
  now apply paragraph_parts_spaces.
Qed.

Lemma empty_page_warned_witness :
  let blocks := [ {| type := lit "heading_1"; rich_text := [ {| plain_text := lit "Title" |} ] |};
                  {| type := lit "divider"; rich_text := [] |} ] in
  let w := quiet_world blocks (lit "graph TD; a-->b") in
  process_research_page (PageContext.mk (lit "p")) w []
  = (Returned empty_page_warning, [BlocksChildrenList (lit "p")])
  /\ startswith error_prefix empty_page_warning = false
  /\ process_page (lit "p") w []
     = (Returned (Http200 [(lit "page_id", lit "p"); (lit "result", empty_page_warning)]),
        [BlocksChildrenList (lit "p")]).
Proof.
  intros blocks w.
  apply (empty_page_warned (PageContext.mk (lit "p")) w [] blocks).
  - reflexivity.
  - right. right. repeat constructor.
Defined.

Lemma blank_page_warned_witness :
  let blocks := [ paragraph_block (lit "   "); paragraph_block [newline; 9%N] ] in
  process_research_page (PageContext.mk (lit "p")) (quiet_world blocks (lit "graph TD")) []
  = (Returned empty_page_warning, [BlocksChildrenList (lit "p")]).
Proof.
  intros blocks.
  apply (blank_page_warned (PageContext.mk (lit "p")) (quiet_world blocks (lit "graph TD"))
           [] blocks).
  - reflexivity.
  - intros block text_item [<-|[<-|[]]] _ [<-|[]]; reflexivity.
Defined.

(** ** Writing back *)

Lemma write_back_as_loop (page_id : str) (result : AgentState.t) (w : World)
      (tr : list Event) :
  write_back page_id result w tr
  = bind (append_each page_id (write_back_blocks result))
      (fun _ => ret page_refined_message) w tr.
Proof.
  unfold write_back, write_back_blocks.
  destruct (truthy (refined_content result)), (truthy (result_mermaid_code result));
    cbn [app append_each]; run_eff;
    repeat match goal with
      | |- context [notion_append w ?t ?p ?b] =>
          destruct (notion_append w t p b) as [[]|?]; try reflexivity
      end.
Qed.

(** The loop appends a prefix of its calls, all of them when it returns. *)
Lemma append_each_trace (page_id : str) (calls : list (list NewBlock)) (w : World)
      (tr : list Event) (r : outcome unit) (tr' : list Event) :
  append_each page_id calls w tr = (r, tr') ->
  exists done rest,
    calls = done ++ rest
    /\ tr' = tr ++ map (BlocksChildrenAppend page_id) done
    /\ (forall u, r = Returned u -> rest = [])
    /\ (forall e, r = Raised e ->
        exists before failed,
          done = before ++ [failed]
          /\ notion_append w (tr ++ map (BlocksChildrenAppend page_id) before) page_id failed
             = Raised e).
Proof.
  revert tr. induction calls as [|children calls IH]; intros tr H.
  - cbn in H. inversion H; subst. exists [], []. cbn. rewrite app_nil_r.
    repeat split. discriminate.
  - cbn [append_each] in H. unfold bind, blocks_children_append in H.
    destruct (notion_append w tr page_id children) as [[]|e] eqn:E.
    + destruct (IH _ H) as (done & rest & Hc & Ht & Hr & He).
      exists (children :: done), rest. subst calls tr'.
      cbn [map app]. rewrite <- app_assoc.
      repeat split; [exact Hr|].
      intros e Hre. destruct (He e Hre) as (before & failed & Hd & Hf).
      exists (children :: before), failed. subst done.
      cbn [map app]. rewrite <- app_assoc in Hf. now split.
    + inversion H; subst. exists [children], calls.
      repeat split; [discriminate|].
      intros e' He'. inversion He'; subst. exists [], children. cbn [map].
      rewrite app_nil_r. now split.
Qed.

Lemma append_each_accepted (page_id : str) (calls : list (list NewBlock)) (w : World)
      (tr : list Event) :
  (forall before children, notion_append w before page_id children = Returned tt) ->
  append_each page_id calls w tr
  = (Returned tt, tr ++ map (BlocksChildrenAppend page_id) calls).
Proof.
  intros Hok. revert tr. induction calls as [|children calls IH]; intros tr.
  - cbn. now rewrite app_nil_r.
  - cbn [append_each]. unfold bind, blocks_children_append.
    rewrite Hok, IH. cbn [map]. now rewrite <- app_assoc.
Qed.

Lemma refined_content_cases (result : AgentState.t) :
  (refined_content result = []
   /\ (AgentState.refined_notes result = None \/ AgentState.refined_notes result = Some []))
  \/ exists notes,
       AgentState.refined_notes result = Some notes /\ notes <> []
       /\ refined_content result = slice_to 2000 notes
       /\ truthy (refined_content result) = true.
Proof.
  unfold refined_content.
  destruct (AgentState.refined_notes result) as [[|c notes]|].
  - left. split; [reflexivity|now right].
  - right. exists (c :: notes). repeat split; discriminate.
  - left. split; [reflexivity|now left].
Qed.

Lemma result_mermaid_code_cases (result : AgentState.t) :
  (result_mermaid_code result = []
   /\ (AgentState.mermaid_code result = None \/ AgentState.mermaid_code result = Some []))
  \/ exists text,
       AgentState.mermaid_code result = Some text /\ text <> []
       /\ result_mermaid_code result = text
       /\ truthy text = true.
Proof.
  unfold result_mermaid_code.
  destruct (AgentState.mermaid_code result) as [[|c text]|].
  - left. split; [reflexivity|now right].
  - right. exists (c :: text). repeat split; discriminate.
  - left. split; [reflexivity|now left].
Qed.

Lemma write_back_returned (page_id : str) (result : AgentState.t) (w : World)
      (tr : list Event) (message : str) (tr' : list Event) :
  write_back page_id result w tr = (Returned message, tr') ->
  tr' = tr ++ map (BlocksChildrenAppend page_id) (write_back_blocks result)
  /\ message = page_refined_message.
Proof.
  rewrite write_back_as_loop. unfold bind.
  destruct (append_each page_id (write_back_blocks result) w tr) as [[u|e] tr1] eqn:E;
    [|discriminate].
  intros H. inversion H; subst. split; [|reflexivity].
  destruct (append_each_trace _ _ _ _ _ _ E) as (done & rest & Hc & Ht & Hr & _).
  rewrite (Hr u eq_refl), app_nil_r in Hc. now subst done.
Qed.

(** C2: the write-back calls nothing but append, on the page, one block a
    call: the divider, the heading of the refined notes, a paragraph only
    if [refined_notes] is present (and then when it is not empty, with its
    first 2000 characters), the heading of the diagram, a code block only
    if [mermaid_code] is present (and then when it is not empty, tagged
    [mermaid], with the whole text).  The calls made are a prefix of this
    sequence, all of it when the write-back returns, and it returns when
    the store accepts every append. *)
Theorem write_back_order (page_id : str) (result : AgentState.t) (w : World)
        (tr : list Event) :
  (forall r tr',
      write_back page_id result w tr = (r, tr') ->
      exists paragraph code done rest,
        [[Divider]; [Heading2 refined_notes_heading]] ++ paragraph
          ++ [[Heading2 diagram_heading]] ++ code = done ++ rest
        /\ tr' = tr ++ map (BlocksChildrenAppend page_id) done
        /\ (forall message, r = Returned message -> rest = [])
        /\ (paragraph = []
            \/ exists notes,
                 AgentState.refined_notes result = Some notes /\ notes <> []
                 /\ paragraph = [[Paragraph (slice_to 2000 notes)]])
        /\ (paragraph = [] ->
            AgentState.refined_notes result = None
            \/ AgentState.refined_notes result = Some [])
        /\ (code = []
            \/ exists text,
                 AgentState.mermaid_code result = Some text /\ text <> []
                 /\ code = [[Code text (lit "mermaid")]])
        /\ (code = [] ->
            AgentState.mermaid_code result = None
            \/ AgentState.mermaid_code result = Some []))
  /\ ((forall before children, notion_append w before page_id children = Returned tt) ->
      exists tr', write_back page_id result w tr = (Returned page_refined_message, tr')).
Proof.
  split.
  - intros r tr'. rewrite write_back_as_loop. unfold bind.
    destruct (append_each page_id (write_back_blocks result) w tr) as [u tr1] eqn:E.
    destruct (append_each_trace _ _ _ _ _ _ E) as (done & rest & Hc & Ht & Hr & _).
    intros H.
    exists (if truthy (refined_content result)
            then [[Paragraph (refined_content result)]] else []),
           (if truthy (result_mermaid_code result)
            then [[Code (result_mermaid_code result) (lit "mermaid")]] else []),
           done, rest.
    split; [exact Hc|].
    split; [destruct u; inversion H; subst; reflexivity|].
    split; [intros message Hm; destruct u as [u|e]; [now apply (Hr u)|subst r; discriminate]|].
    split; [|split; [|split]].
    + destruct (refined_content_cases result)
        as [(Hr0 & Hn)|(notes & Hn & Hne & Hr0 & Ht0)].
      * left. now rewrite Hr0.
      * right. exists notes. rewrite Ht0, Hr0. auto.
    + destruct (refined_content_cases result)
        as [(Hr0 & Hn)|(notes & Hn & Hne & Hr0 & Ht0)].
      * intros _. exact Hn.
      * rewrite Ht0. discriminate.
    + destruct (result_mermaid_code_cases result)
        as [(Hm0 & Hc0)|(text & Hc0 & Hce & Hm0 & Ht1)].
      * left. now rewrite Hm0.
      * right. exists text. rewrite Hm0, Ht1. auto.
    + destruct (result_mermaid_code_cases result)
        as [(Hm0 & Hc0)|(text & Hc0 & Hce & Hm0 & Ht1)].
      * intros _. exact Hc0.
      * rewrite Hm0, Ht1. discriminate.
  - intros Hok. rewrite write_back_as_loop. unfold bind.
    rewrite (append_each_accepted _ _ _ _ Hok). now eexists.
Qed.

Lemma write_back_order_witness :
  let result :=
    AgentState.mk (lit "raw") (Some (lit "# Notes")) (Some (lit "graph TD; a-->b")) (lit "p") in
  let w := quiet_world [] [] in
  (exists tr', write_back (lit "p") result w [] = (Returned page_refined_message, tr'))
  /\ exists done,
       snd (write_back (lit "p") result w [])
       = [] ++ map (BlocksChildrenAppend (lit "p")) done.
Proof.
  intros result w.
  destruct (write_back_order (lit "p") result w []) as [Hany Hok].
  split; [apply Hok; intros before children; reflexivity|].
  destruct (Hany (Returned page_refined_message)
              (snd (write_back (lit "p") result w [])) eq_refl)
    as (paragraph & code & done & rest & _ & Htrace & _).
  exists done. exact Htrace.
Defined.

(** The first end-to-end scenario: two paragraphs, five appends. *)
Example hello_world_page :
  let blocks := [paragraph_block (lit "Hello"); paragraph_block (lit "World")] in
  let w := quiet_world blocks (lit "graph TD; a-->b") in
  fst (process_research_page (PageContext.mk (lit "p")) w []) = Returned page_refined_message
  /\ appended (snd (process_research_page (PageContext.mk (lit "p")) w []))
     = [ [Divider]; [Heading2 refined_notes_heading];
         [Paragraph (lit "graph TD; a-->b")];
         [Heading2 diagram_heading];
         [Code (lit "graph TD; a-->b") (lit "mermaid")] ]
  /\ join [newline] (paragraph_parts blocks) = lit "Hello" ++ [newline] ++ lit "World".
Proof.
  repeat split; reflexivity.
Qed.

Lemma appended_app (a b : list Event) : appended (a ++ b) = appended a ++ appended b.
Proof.
  unfold appended. apply flat_map_app.
Qed.

Lemma paragraphs_written_app (a b : list Event) :
  paragraphs_written (a ++ b) = paragraphs_written a ++ paragraphs_written b.
Proof.
  unfold paragraphs_written. now rewrite appended_app, concat_app, flat_map_app.
Qed.

Lemma paragraphs_written_write_back (page_id : str) (result : AgentState.t) :
  paragraphs_written (map (BlocksChildrenAppend page_id) (write_back_blocks result))
  = if truthy (refined_content result) then [refined_content result] else [].
Proof.
  unfold write_back_blocks.
  now destruct (truthy (refined_content result)), (truthy (result_mermaid_code result)).
Qed.

(** C3: of refined notes longer than 2000 characters the paragraph written
    back holds exactly the first 2000; notes of 1 to 2000 characters are
    written whole. *)
Theorem refined_notes_truncated (page_id : str) (result : AgentState.t) (w : World)
        (tr : list Event) (notes message : str) (tr' : list Event) :
  AgentState.refined_notes result = Some notes ->
  write_back page_id result w tr = (Returned message, tr') ->
  (2000 < List.length notes ->
   paragraphs_written tr' = paragraphs_written tr ++ [firstn 2000 notes]
   /\ List.length (firstn 2000 notes) = 2000
   /\ notes = firstn 2000 notes ++ skipn 2000 notes)
  /\ (0 < List.length notes <= 2000 ->
      paragraphs_written tr' = paragraphs_written tr ++ [notes]).
Proof.
  intros Hnotes Hrun.
  destruct (write_back_returned _ _ _ _ _ _ Hrun) as [-> _].
  rewrite paragraphs_written_app, paragraphs_written_write_back.
  assert (0 < List.length notes -> truthy (refined_content result) = true
          /\ refined_content result = firstn 2000 notes) as Hcontent.
  { intros Hpos. unfold refined_content. rewrite Hnotes.
    destruct notes as [|c notes]; [cbn in Hpos; lia|]. split; reflexivity. }
  split.
  - intros Hlong. destruct Hcontent as [-> ->]; [lia|].
    split; [reflexivity|]. split; [|now rewrite firstn_skipn].
    rewrite length_firstn. lia.
  - intros [Hpos Hshort]. destruct (Hcontent Hpos) as [-> ->].
    now rewrite firstn_all2.
Qed.

Lemma refined_notes_truncated_witness :
  let long := repeat 120%N 2001 in
  let w := quiet_world [] [] in
  (paragraphs_written
     (snd (write_back (lit "p") (AgentState.mk (lit "raw") (Some long) None (lit "p")) w []))
   = [] ++ [firstn 2000 long]
   /\ List.length (firstn 2000 long) = 2000
   /\ long = firstn 2000 long ++ skipn 2000 long)
  /\ paragraphs_written
       (snd (write_back (lit "p")
               (AgentState.mk (lit "raw") (Some (lit "# Notes")) None (lit "p")) w []))
     = [] ++ [lit "# Notes"].
Proof.
  intros long w. split.
  - apply (proj1 (refined_notes_truncated (lit "p")
                    (AgentState.mk (lit "raw") (Some long) None (lit "p")) w [] long
                    page_refined_message _ eq_refl eq_refl)).
    vm_compute. lia.
  - apply (proj2 (refined_notes_truncated (lit "p")
                    (AgentState.mk (lit "raw") (Some (lit "# Notes")) None (lit "p")) w []
                    (lit "# Notes") page_refined_message _ eq_refl eq_refl)).
    vm_compute. lia.
Defined.

(** ** The HTTP handlers *)

Lemma process_returns (ctx : PageContext.t) (w : World) (tr : list Event) :
  exists result tr', process_research_page ctx w tr = (Returned result, tr').
Proof.
  unfold process_research_page. rewrite bind_attempt.
  destruct (read_paragraphs (PageContext.page_id ctx) w tr) as [[raw_text|e] tr1];
    cbn [fst snd]; [|now eexists _, _].
  destruct (negb (truthy (strip raw_text))); [now eexists _, _|].
  rewrite bind_attempt.
  destruct (app_invoke _ w tr1) as [[result|e] tr2]; cbn [fst snd]; [|now eexists _, _].
  rewrite bind_attempt.
  destruct (write_back _ result w tr2) as [[message|e] tr3]; now eexists _, _.
Qed.

Lemma get_page_content_returns (ctx : PageContext.t) (w : World) (tr : list Event) :
  exists result tr', get_page_content ctx w tr = (Returned result, tr').
Proof.
  unfold get_page_content. rewrite bind_attempt.
  match goal with
  | |- context [fst (?m w tr)] => destruct (m w tr) as [[text|e] tr1]
  end; now eexists _, _.
Qed.

Lemma answers_if (result : str) (body : list (str * str)) :
  In result (map snd body) ->
  answers result
    (if startswith error_prefix result then HTTPException 400 result else Http200 body).
Proof.
  intros Hin. unfold answers.
  destruct (startswith error_prefix result); cbn [status_of].
  - repeat split; try reflexivity; discriminate.
  - repeat split; try reflexivity; try discriminate.
    intros _. now exists body.
Qed.

(** C6: each handler raises an [HTTPException] with status 400 and the
    result string as its detail exactly when the string its tool returned
    begins with "Error"; every other result, warnings included, is sent in
    a body with status 200. *)
Theorem http_error_mapping (w : World) (tr : list Event) :
  (forall page_id, exists result response tr',
      get_page_content (PageContext.mk page_id) w tr = (Returned result, tr')
      /\ get_content page_id w tr = (Returned response, tr')
      /\ answers result response)
  /\ (forall page_id, exists result response tr',
        process_research_page (PageContext.mk page_id) w tr = (Returned result, tr')
        /\ process_page page_id w tr = (Returned response, tr')
        /\ answers result response)
  /\ (forall request, exists result response tr',
        combine_architecture_diagrams request w tr = (Returned result, tr')
        /\ combine_diagrams request w tr = (Returned response, tr')
        /\ answers result response).
Proof.
  split; [|split].
  - intros page_id.
    destruct (get_page_content_returns (PageContext.mk page_id) w tr) as (result & tr' & H).
    exists result. eexists. exists tr'.
    split; [exact H|]. unfold get_content, bind. rewrite H.
    split; [reflexivity|]. apply answers_if. cbn. auto.
  - intros page_id.
    destruct (process_returns (PageContext.mk page_id) w tr) as (result & tr' & H).
    exists result. eexists. exists tr'.
    split; [exact H|]. unfold process_page, bind. rewrite H.
    split; [reflexivity|]. apply answers_if. cbn. auto.
  - intros request.
    destruct (combine_returns request w tr) as (result & tr' & H).
    exists result. eexists. exists tr'.
    split; [exact H|]. unfold combine_diagrams, bind. rewrite H.
    split; [reflexivity|]. apply answers_if. cbn. auto.
Qed.

(** * Further properties of the server *)

(** ** The paths through [process_research_page] *)

Lemma truthy_nonempty (s : str) : truthy s = true <-> s <> [].
Proof.
  destruct s; cbn; split; congruence.
Qed.

(** The compiled graph, run: the refiner's call, then the architect's. *)
Lemma app_invoke_run (state : AgentState.t) (w : World) (tr : list Event) :
  app_invoke state w tr
  = let p1 := rewrite_prompt (AgentState.raw_notes state) in
    let tr1 := tr ++ [LlmInvoke p1] in
    match llm_content w tr p1 with
    | Raised e => (Raised e, tr1)
    | Returned notes =>
        let refined :=
          AgentState.mk (AgentState.raw_notes state) (Some notes)
            (AgentState.mermaid_code state) (AgentState.page_id state) in
        let p2 := diagram_prompt (diagram_content refined) in
        match llm_content w tr1 p2 with
        | Raised e => (Raised e, tr1 ++ [LlmInvoke p2])
        | Returned response =>
            (Returned (AgentState.mk (AgentState.raw_notes state) (Some notes)
                         (Some (clean_code response)) (AgentState.page_id state)),
             tr1 ++ [LlmInvoke p2])
        end
    end.
Proof.
  unfold app_invoke, workflow. cbn [run_nodes].
  unfold rewrite_notes_node, generate_diagram_node. run_eff.
  destruct (llm_content w tr (rewrite_prompt (AgentState.raw_notes state)))
    as [notes|e]; [|reflexivity].
  cbn [merge fold_left set_field]. cbn zeta.
  match goal with
  | |- context [llm_content w ?t ?p] => destruct (llm_content w t p) as [response|e]
  end; reflexivity.
Qed.

Lemma process_read_raised (ctx : PageContext.t) (w : World) (tr : list Event) (e : str) :
  notion_list w tr (PageContext.page_id ctx) = Raised e ->
  process_research_page ctx w tr
  = (Returned (lit "Error reading Notion: " ++ e),
     tr ++ [BlocksChildrenList (PageContext.page_id ctx)]).
Proof.
  intros H. unfold process_research_page.
  rewrite bind_attempt, read_paragraphs_run, H. reflexivity.
Qed.

(** A page with text: the agent runs, and its result is written back. *)
Lemma process_with_text (ctx : PageContext.t) (w : World) (tr : list Event)
      (blocks : list Block) :
  let page_id := PageContext.page_id ctx in
  let raw_text := join [newline] (paragraph_parts blocks) in
  let run := app_invoke (AgentState.mk raw_text None None page_id) w
               (tr ++ [BlocksChildrenList page_id]) in
  notion_list w tr page_id = Returned blocks ->
  strip raw_text <> [] ->
  process_research_page ctx w tr
  = match fst run with
    | Raised e => (Returned (lit "Error running agent: " ++ e), snd run)
    | Returned result =>
        let written := write_back page_id result w (snd run) in
        (match fst written with
         | Raised e => Returned (lit "Error writing to Notion: " ++ e)
         | Returned message => Returned message
         end, snd written)
    end.
Proof.
  intros page_id raw_text run Hlist Htext.
  apply truthy_nonempty in Htext.
  unfold process_research_page. fold page_id.
  rewrite bind_attempt, read_paragraphs_run, Hlist. cbn [fst snd].
  fold raw_text. rewrite Htext. cbn [negb].
  rewrite bind_attempt. fold run.
  destruct (fst run) as [result|e]; [|reflexivity].
  rewrite bind_attempt. cbn zeta.
  now destruct (fst (write_back page_id result w (snd run))).
Qed.

(** X1: when the read of the page raises, [process_research_page] returns
    "Error reading Notion: " followed by the exception's message; nothing is
    called after the read, and the HTTP handler answers with status 400. *)
Theorem read_failure_reported (ctx : PageContext.t) (w : World) (tr : list Event)
        (e : str) :
  notion_list w tr (PageContext.page_id ctx) = Raised e ->
  process_research_page ctx w tr
  = (Returned (lit "Error reading Notion: " ++ e),
     tr ++ [BlocksChildrenList (PageContext.page_id ctx)])
  /\ process_page (PageContext.page_id ctx) w tr
     = (Returned (HTTPException 400 (lit "Error reading Notion: " ++ e)),
        tr ++ [BlocksChildrenList (PageContext.page_id ctx)]).
Proof.
  intros H. pose proof (process_read_raised ctx w tr e H) as Hrun.
  split; [exact Hrun|].
  unfold process_page, bind. destruct ctx as [page_id]. cbn [PageContext.page_id] in *.
  now rewrite Hrun.
Qed.

Lemma read_failure_reported_witness :
  process_research_page (PageContext.mk (lit "p")) (unreachable_store (lit "404")) []
  = (Returned (lit "Error reading Notion: 404"), [BlocksChildrenList (lit "p")])
  /\ process_page (lit "p") (unreachable_store (lit "404")) []
     = (Returned (HTTPException 400 (lit "Error reading Notion: 404")),
        [BlocksChildrenList (lit "p")]).
Proof.
  apply (read_failure_reported (PageContext.mk (lit "p")) (unreachable_store (lit "404"))
           [] (lit "404")).
  reflexivity.
Defined.

(** X2: on a page with text, a model call that raises ends the request
    with "Error running agent: " and the message, and nothing is appended:
    when the refiner's call raises the architect is not called, and when
    the architect's call raises the refined notes are dropped. *)
Theorem agent_failure_reported (ctx : PageContext.t) (w : World) (tr : list Event)
        (blocks : list Block) (e : str) :
  let page_id := PageContext.page_id ctx in
  let raw_text := join [newline] (paragraph_parts blocks) in
  let tr0 := tr ++ [BlocksChildrenList page_id] in
  let tr1 := tr0 ++ [LlmInvoke (rewrite_prompt raw_text)] in
  notion_list w tr page_id = Returned blocks ->
  strip raw_text <> [] ->
  (llm_content w tr0 (rewrite_prompt raw_text) = Raised e ->
   process_research_page ctx w tr = (Returned (lit "Error running agent: " ++ e), tr1))
  /\ (forall notes,
        let content := if truthy notes then notes else raw_text in
        llm_content w tr0 (rewrite_prompt raw_text) = Returned notes ->
        llm_content w tr1 (diagram_prompt content) = Raised e ->
        process_research_page ctx w tr
        = (Returned (lit "Error running agent: " ++ e),
           tr1 ++ [LlmInvoke (diagram_prompt content)])).
Proof.
  intros page_id raw_text tr0 tr1 Hlist Htext.
  pose proof (process_with_text ctx w tr blocks Hlist Htext) as Hrun.
  cbn zeta in Hrun. fold page_id raw_text tr0 in Hrun.
  rewrite app_invoke_run in Hrun. cbn zeta in Hrun.
  cbn [AgentState.raw_notes AgentState.mermaid_code AgentState.page_id] in Hrun.
  fold tr1 in Hrun.
  split.
  - intros H1. rewrite H1 in Hrun. exact Hrun.
  - intros notes content H1 H2. rewrite H1 in Hrun.
    unfold diagram_content in Hrun. cbn [AgentState.refined_notes AgentState.raw_notes] in Hrun.
    fold content in Hrun. rewrite H2 in Hrun. exact Hrun.
Qed.

Lemma agent_failure_reported_witness :
  let blocks := [paragraph_block (lit "Hello")] in
  let tr0 := [BlocksChildrenList (lit "p")] in
  let tr1 := tr0 ++ [LlmInvoke (rewrite_prompt (lit "Hello"))] in
  process_research_page (PageContext.mk (lit "p"))
    (broken_llm_world blocks (lit "quota")) []
  = (Returned (lit "Error running agent: quota"), tr1)
  /\ process_research_page (PageContext.mk (lit "p"))
       (one_answer_world blocks (lit "# Hello") (lit "quota")) []
     = (Returned (lit "Error running agent: quota"),
        tr1 ++ [LlmInvoke (diagram_prompt (lit "# Hello"))]).
Proof.
  intros blocks tr0 tr1. split.
  - apply (proj1 (agent_failure_reported (PageContext.mk (lit "p"))
                    (broken_llm_world blocks (lit "quota")) [] blocks (lit "quota")
                    eq_refl ltac:(discriminate))).
    reflexivity.
  - apply (proj2 (agent_failure_reported (PageContext.mk (lit "p"))
                    (one_answer_world blocks (lit "# Hello") (lit "quota")) [] blocks
                    (lit "quota") eq_refl ltac:(discriminate))
             (lit "# Hello")); reflexivity.
Defined.

(** X3: when an append raises after the agent has run, the request ends
    with "Error writing to Notion: " and the message; the blocks appended
    before the failing call stay on the page, and no call follows it. *)
Theorem write_failure_reported (ctx : PageContext.t) (w : World) (tr : list Event)
        (blocks : list Block) (result : AgentState.t) (tr2 tr3 : list Event) (e : str) :
  let page_id := PageContext.page_id ctx in
  let raw_text := join [newline] (paragraph_parts blocks) in
  notion_list w tr page_id = Returned blocks ->
  strip raw_text <> [] ->
  app_invoke (AgentState.mk raw_text None None page_id) w (tr ++ [BlocksChildrenList page_id])
  = (Returned result, tr2) ->
  write_back page_id result w tr2 = (Raised e, tr3) ->
  process_research_page ctx w tr = (Returned (lit "Error writing to Notion: " ++ e), tr3)
  /\ exists before failed rest,
       write_back_blocks result = before ++ failed :: rest
       /\ tr3 = tr2 ++ map (BlocksChildrenAppend page_id) before
                  ++ [BlocksChildrenAppend page_id failed]
       /\ notion_append w (tr2 ++ map (BlocksChildrenAppend page_id) before) page_id failed
          = Raised e.
Proof.
  intros page_id raw_text Hlist Htext Hrun Hwrite.
  split.
  - rewrite (process_with_text ctx w tr blocks Hlist Htext). cbn zeta.
    fold page_id raw_text. rewrite Hrun. cbn [fst snd]. now rewrite Hwrite.
  - rewrite write_back_as_loop in Hwrite. unfold bind in Hwrite.
    destruct (append_each page_id (write_back_blocks result) w tr2) as [[u|e'] tr'] eqn:E;
      [discriminate|].
    inversion Hwrite; subst e' tr'. clear Hwrite.
    destruct (append_each_trace _ _ _ _ _ _ E) as (done & rest & Hc & Ht & _ & He).
    destruct (He e eq_refl) as (before & failed & Hd & Hf).
    exists before, failed, rest. subst done.
    rewrite <- app_assoc in Hc. rewrite map_app in Ht.
    repeat split; [exact Hc|exact Ht|exact Hf].
Qed.

(** X4: on a page with text, when both model calls return and the store
    accepts every append, the request returns the success message after
    exactly the read, the refiner's call on the raw text, the architect's
    call, and the appends of the write-back for the refiner's answer as
    it is and the architect's answer cleaned. *)
Theorem page_processed (ctx : PageContext.t) (w : World) (tr : list Event)
        (blocks : list Block) (notes response : str) :
  let page_id := PageContext.page_id ctx in
  let raw_text := join [newline] (paragraph_parts blocks) in
  let tr0 := tr ++ [BlocksChildrenList page_id] in
  let tr1 := tr0 ++ [LlmInvoke (rewrite_prompt raw_text)] in
  let content := if truthy notes then notes else raw_text in
  let result := AgentState.mk raw_text (Some notes) (Some (clean_code response)) page_id in
  notion_list w tr page_id = Returned blocks ->
  strip raw_text <> [] ->
  llm_content w tr0 (rewrite_prompt raw_text) = Returned notes ->
  llm_content w tr1 (diagram_prompt content) = Returned response ->
  (forall before children, notion_append w before page_id children = Returned tt) ->
  process_research_page ctx w tr
  = (Returned page_refined_message,
     tr ++ [BlocksChildrenList page_id; LlmInvoke (rewrite_prompt raw_text);
            LlmInvoke (diagram_prompt content)]
        ++ map (BlocksChildrenAppend page_id) (write_back_blocks result)).
Proof.
  intros page_id raw_text tr0 tr1 content result Hlist Htext H1 H2 Hok.
  rewrite (process_with_text ctx w tr blocks Hlist Htext). cbn zeta.
  fold page_id raw_text tr0. rewrite app_invoke_run. cbn zeta.
  cbn [AgentState.raw_notes AgentState.mermaid_code AgentState.page_id].
  fold tr1. rewrite H1.
  unfold diagram_content. cbn [AgentState.refined_notes AgentState.raw_notes].
  fold content. rewrite H2. cbn [fst snd]. fold result.
  rewrite write_back_as_loop. unfold bind.
  rewrite (append_each_accepted _ _ _ _ Hok). cbn [fst snd ret].
  f_equal. unfold tr1, tr0. now rewrite <- !app_assoc.
Qed.

Lemma write_failure_reported_witness :
  let blocks := [paragraph_block (lit "Hello")] in
  let w := full_store blocks (lit "graph TD") (lit "conflict") in
  let ctx := PageContext.mk (lit "p") in
  let result := AgentState.mk (lit "Hello") (Some (lit "graph TD")) (Some (lit "graph TD"))
                  (lit "p") in
  let tr2 := snd (app_invoke (AgentState.mk (lit "Hello") None None (lit "p")) w
                    [BlocksChildrenList (lit "p")]) in
  let tr3 := tr2 ++ map (BlocksChildrenAppend (lit "p"))
                      [[Divider]; [Heading2 refined_notes_heading];
                       [Paragraph (lit "graph TD")]] in
  process_research_page ctx w []
  = (Returned (lit "Error writing to Notion: " ++ lit "conflict"), tr3)
  /\ exists before failed rest,
       write_back_blocks result = before ++ failed :: rest
       /\ tr3 = tr2 ++ map (BlocksChildrenAppend (lit "p")) before
                  ++ [BlocksChildrenAppend (lit "p") failed]
       /\ notion_append w (tr2 ++ map (BlocksChildrenAppend (lit "p")) before) (lit "p") failed
          = Raised (lit "conflict").
Proof.
  intros blocks w ctx result tr2 tr3.
  apply (write_failure_reported ctx w [] blocks result tr2 tr3 (lit "conflict")).
  - reflexivity.
  - discriminate.
  - reflexivity.
  - reflexivity.
Defined.

Lemma page_processed_witness :
  let blocks := [paragraph_block (lit "Hello"); paragraph_block (lit "World")] in
  let raw_text := lit "Hello" ++ [newline] ++ lit "World" in
  process_research_page (PageContext.mk (lit "p"))
    (quiet_world blocks (lit "```mermaid graph TD ```")) []
  = (Returned page_refined_message,
     [] ++ [BlocksChildrenList (lit "p"); LlmInvoke (rewrite_prompt raw_text);
            LlmInvoke (diagram_prompt (lit "```mermaid graph TD ```"))]
        ++ map (BlocksChildrenAppend (lit "p"))
             (write_back_blocks
                (AgentState.mk raw_text (Some (lit "```mermaid graph TD ```"))
                   (Some (clean_code (lit "```mermaid graph TD ```"))) (lit "p")))).
Proof.
  intros blocks raw_text.
  apply (page_processed (PageContext.mk (lit "p"))
           (quiet_world blocks (lit "```mermaid graph TD ```")) [] blocks
           (lit "```mermaid graph TD ```") (lit "```mermaid graph TD ```")).
  - reflexivity.
  - discriminate.
  - reflexivity.
  - reflexivity.
  - intros before children. reflexivity.
Defined.

Lemma write_back_blocks_length (result : AgentState.t) :
  3 <= List.length (write_back_blocks result) <= 5.
Proof.
  unfold write_back_blocks.
  destruct (truthy (refined_content result)), (truthy (result_mermaid_code result));
    cbn; lia.
Qed.

(** Every run of [process_research_page]: what it returns and what it
    called, path by path. *)
Lemma process_shape (ctx : PageContext.t) (w : World) (tr : list Event) :
  let page_id := PageContext.page_id ctx in
  exists result prompts calls,
    process_research_page ctx w tr
    = (Returned result,
       tr ++ BlocksChildrenList page_id
          :: map LlmInvoke prompts ++ map (BlocksChildrenAppend page_id) calls)
    /\ ((prompts = [] /\ calls = []
         /\ ((exists e, notion_list w tr page_id = Raised e
                        /\ result = lit "Error reading Notion: " ++ e)
             \/ (exists blocks, notion_list w tr page_id = Returned blocks
                                /\ strip (join [newline] (paragraph_parts blocks)) = []
                                /\ result = empty_page_warning)))
        \/ exists blocks more,
             notion_list w tr page_id = Returned blocks
             /\ strip (join [newline] (paragraph_parts blocks)) <> []
             /\ prompts = rewrite_prompt (join [newline] (paragraph_parts blocks)) :: more
             /\ ((List.length more <= 1 /\ calls = []
                  /\ exists e, result = lit "Error running agent: " ++ e)
                 \/ (List.length more = 1 /\ 1 <= List.length calls <= 5
                     /\ exists e, result = lit "Error writing to Notion: " ++ e)
                 \/ (List.length more = 1 /\ 3 <= List.length calls <= 5
                     /\ result = page_refined_message))).
Proof.
  intros page_id.
  destruct (notion_list w tr page_id) as [blocks|e] eqn:Hlist.
  - destruct (strip (join [newline] (paragraph_parts blocks))) as [|c s] eqn:Htext.
    + exists empty_page_warning, [], []. split.
      * now apply (process_blank ctx w tr blocks).
      * left. repeat split. right. exists blocks. now repeat split.
    + assert (strip (join [newline] (paragraph_parts blocks)) <> []) as Hne
          by (rewrite Htext; discriminate).
      rewrite (process_with_text ctx w tr blocks Hlist Hne). cbn zeta. fold page_id.
      rewrite app_invoke_run. cbn zeta.
      cbn [AgentState.raw_notes AgentState.mermaid_code AgentState.page_id].
      set (raw_text := join [newline] (paragraph_parts blocks)).
      set (p1 := rewrite_prompt raw_text).
      set (tr0 := tr ++ [BlocksChildrenList page_id]).
      destruct (llm_content w tr0 p1) as [notes|e].
      * set (p2 := diagram_prompt _).
        destruct (llm_content w (tr0 ++ [LlmInvoke p1]) p2) as [response|e]; cbn [fst snd].
        -- set (result := AgentState.mk raw_text (Some notes) (Some (clean_code response))
                            page_id).
           set (tr2 := (tr0 ++ [LlmInvoke p1]) ++ [LlmInvoke p2]).
           rewrite write_back_as_loop. unfold bind.
           destruct (append_each page_id (write_back_blocks result) w tr2)
             as [[u|e] tr3] eqn:E;
             destruct (append_each_trace _ _ _ _ _ _ E) as (done & rest & Hc & Ht & Hr & He);
             pose proof (write_back_blocks_length result) as Hlen;
             rewrite Hc, length_app in Hlen.
           ++ exists page_refined_message, [p1; p2], done. split.
              ** cbn [fst snd ret]. f_equal. subst tr3 tr2 tr0.
                 rewrite <- !app_assoc. reflexivity.
              ** right. exists blocks, [p2]. repeat split; try assumption.
                 right. right. rewrite (Hr u eq_refl) in Hlen. cbn in Hlen.
                 repeat split; cbn; lia.
           ++ exists (lit "Error writing to Notion: " ++ e), [p1; p2], done. split.
              ** cbn [fst snd]. f_equal. subst tr3 tr2 tr0.
                 rewrite <- !app_assoc. reflexivity.
              ** right. exists blocks, [p2]. repeat split; try assumption.
                 right. left.
                 destruct (He e eq_refl) as (before & failed & Hd & _).
                 subst done. rewrite length_app in *. cbn in *.
                 repeat split; try lia. now exists e.
        -- exists (lit "Error running agent: " ++ e), [p1; p2], []. split.
           ++ f_equal. subst tr0. rewrite <- !app_assoc. reflexivity.
           ++ right. exists blocks, [p2]. repeat split; try assumption.
              left. repeat split; [cbn; lia|]. now exists e.
      * exists (lit "Error running agent: " ++ e), [p1], []. split.
        -- cbn [fst snd]. f_equal. subst tr0. rewrite <- !app_assoc. reflexivity.
        -- right. exists blocks, []. repeat split; try assumption.
           left. repeat split; [cbn; lia|]. now exists e.
  - exists (lit "Error reading Notion: " ++ e), [], []. split.
    + now apply process_read_raised.
    + left. repeat split. left. now exists e.
Qed.

(** X5: [process_research_page] always returns one of five strings: the
    success message, the empty-page warning, or one of the three error
    strings followed by a message; it begins with "Error" exactly in the
    three error cases. *)
Theorem process_result_kinds (ctx : PageContext.t) (w : World) (tr : list Event) :
  exists result tr',
    process_research_page ctx w tr = (Returned result, tr')
    /\ (result = page_refined_message
        \/ result = empty_page_warning
        \/ exists e, result = lit "Error reading Notion: " ++ e
                     \/ result = lit "Error running agent: " ++ e
                     \/ result = lit "Error writing to Notion: " ++ e)
    /\ (startswith error_prefix result = true
        <-> exists e, result = lit "Error reading Notion: " ++ e
                      \/ result = lit "Error running agent: " ++ e
                      \/ result = lit "Error writing to Notion: " ++ e).
Proof.
  destruct (process_shape ctx w tr) as (result & prompts & calls & Hrun & Hcases).
  exists result. eexists. split; [exact Hrun|].
  assert (result = page_refined_message
          \/ result = empty_page_warning
          \/ exists e, result = lit "Error reading Notion: " ++ e
                       \/ result = lit "Error running agent: " ++ e
                       \/ result = lit "Error writing to Notion: " ++ e) as Hkind.
  { destruct Hcases as [(_ & _ & [(e & _ & ->)|(blocks & _ & _ & ->)])
                       |(blocks & more & _ & _ & _ &
                         [(_ & _ & e & ->)|[(_ & _ & e & ->)|(_ & _ & ->)]])]; eauto 6. }
  split; [exact Hkind|]. split.
  - intros Hstart.
    destruct Hkind as [->|[->|Herr]]; [discriminate Hstart|discriminate Hstart|exact Herr].
  - intros (e & [->|[->| ->]]); reflexivity.
Qed.

(** X6: the calls of one request are the read, then at most two model
    calls, then at most five appends, all on the page; nothing is appended
    unless both model calls were made. *)
Theorem process_call_bounds (ctx : PageContext.t) (w : World) (tr : list Event) :
  exists prompts calls,
    snd (process_research_page ctx w tr)
    = tr ++ BlocksChildrenList (PageContext.page_id ctx)
         :: map LlmInvoke prompts
         ++ map (BlocksChildrenAppend (PageContext.page_id ctx)) calls
    /\ List.length prompts <= 2
    /\ List.length calls <= 5
    /\ (calls <> [] -> List.length prompts = 2).
Proof.
  destruct (process_shape ctx w tr) as (result & prompts & calls & Hrun & Hcases).
  exists prompts, calls. rewrite Hrun. split; [reflexivity|].
  destruct Hcases as [(-> & -> & _)
                     |(blocks & more & _ & _ & -> &
                       [(Hm & -> & _)|[(Hm & Hc & _)|(Hm & Hc & _)]])];
    cbn [List.length]; repeat split; try lia; try congruence.
Qed.

(** X7: whenever a request goes beyond the read, the page had text that is
    not blank, and the first call after the read is the refiner's, on the
    text of the paragraphs as it was read. *)
Theorem refiner_reads_page_text (ctx : PageContext.t) (w : World) (tr : list Event) :
  snd (process_research_page ctx w tr)
  <> tr ++ [BlocksChildrenList (PageContext.page_id ctx)] ->
  exists blocks rest,
    notion_list w tr (PageContext.page_id ctx) = Returned blocks
    /\ strip (join [newline] (paragraph_parts blocks)) <> []
    /\ snd (process_research_page ctx w tr)
       = tr ++ [BlocksChildrenList (PageContext.page_id ctx);
                LlmInvoke (rewrite_prompt (join [newline] (paragraph_parts blocks)))]
            ++ rest.
Proof.
  destruct (process_shape ctx w tr) as (result & prompts & calls & Hrun & Hcases).
  rewrite Hrun. cbn [snd]. intros Hmore.
  destruct Hcases as [(-> & -> & _)|(blocks & more & Hlist & Htext & -> & _)].
  - now contradiction Hmore.
  - exists blocks, (map LlmInvoke more
                    ++ map (BlocksChildrenAppend (PageContext.page_id ctx)) calls).
    now repeat split.
Qed.

Lemma refiner_reads_page_text_witness :
  let blocks := [paragraph_block (lit " Hello ")] in
  let w := quiet_world blocks (lit "graph TD") in
  exists found rest,
    notion_list w [] (lit "p") = Returned found
    /\ strip (join [newline] (paragraph_parts found)) <> []
    /\ snd (process_research_page (PageContext.mk (lit "p")) w [])
       = [] ++ [BlocksChildrenList (lit "p");
                LlmInvoke (rewrite_prompt (join [newline] (paragraph_parts found)))]
            ++ rest.
Proof.
  intros blocks w.
  apply (refiner_reads_page_text (PageContext.mk (lit "p")) w []).
  discriminate.
Defined.

(** ** What is written and what the model is asked *)

Lemma refined_content_length (result : AgentState.t) :
  List.length (refined_content result) <= 2000.
Proof.
  unfold refined_content.
  destruct (AgentState.refined_notes result) as [notes|]; [|cbn; lia].
  destruct (truthy notes); [|cbn; lia].
  unfold slice_to. rewrite length_firstn. lia.
Qed.

(** X8: whether it returns or raises, the write-back adds at most one
    paragraph to the page, and a paragraph it adds has between 1 and 2000
    characters. *)
Theorem paragraph_within_limit (page_id : str) (result : AgentState.t) (w : World)
        (tr : list Event) :
  exists new,
    paragraphs_written (snd (write_back page_id result w tr)) = paragraphs_written tr ++ new
    /\ List.length new <= 1
    /\ forall content, In content new -> 1 <= List.length content <= 2000.
Proof.
  rewrite write_back_as_loop. unfold bind.
  destruct (append_each page_id (write_back_blocks result) w tr) as [r tr1] eqn:E.
  destruct (append_each_trace _ _ _ _ _ _ E) as (done & rest & Hc & Ht & _ & _).
  exists (paragraphs_written (map (BlocksChildrenAppend page_id) done)).
  assert (snd (match r with
               | Returned _ => ret page_refined_message w tr1
               | Raised e => (Raised e, tr1)
               end) = tr1) as -> by now destruct r.
  subst tr1. split; [apply paragraphs_written_app|].
  pose proof (paragraphs_written_write_back page_id result) as Hall.
  rewrite Hc, map_app, paragraphs_written_app in Hall.
  pose proof (refined_content_length result) as Hlen.
  destruct (truthy (refined_content result)) eqn:Ht.
  - apply truthy_nonempty in Ht.
    destruct (paragraphs_written (map (BlocksChildrenAppend page_id) done)) as [|c new].
    + split; [cbn; lia|]. intros content [].
    + cbn in Hall. inversion Hall as [[Hc0 Hnew]].
      apply app_eq_nil in Hnew as [-> _]. split; [cbn; lia|].
      intros content [<-|[]].
      destruct (refined_content result); [congruence|]. cbn in *. lia.
  - apply app_eq_nil in Hall as [-> _]. split; [cbn; lia|]. intros content [].
Qed.

(** X9: the diagram code the pipeline ends with is the architect's answer
    cleaned: it holds no code fence and no white space at either end, and
    the refined notes are the refiner's answer as it came. *)
Theorem pipeline_result_clean (state : AgentState.t) (w : World) (tr : list Event)
        (result : AgentState.t) (tr' : list Event) :
  app_invoke state w tr = (Returned result, tr') ->
  exists notes code,
    llm_content w tr (rewrite_prompt (AgentState.raw_notes state)) = Returned notes
    /\ AgentState.refined_notes result = Some notes
    /\ AgentState.mermaid_code result = Some code
    /\ contains fence code = false
    /\ contains fence_mermaid code = false
    /\ strip code = code.
Proof.
  rewrite app_invoke_run. cbn zeta.
  destruct (llm_content w tr (rewrite_prompt (AgentState.raw_notes state)))
    as [notes|e]; [|discriminate].
  match goal with
  | |- context [llm_content w ?t ?p] => destruct (llm_content w t p) as [response|e]
  end; [|discriminate].
  intros H. inversion H; subst. clear H.
  exists notes, (clean_code response).
  cbn [AgentState.refined_notes AgentState.mermaid_code].
  repeat split.
  - apply clean_code_no_fence.
  - rewrite fence_mermaid_split. apply contains_weaken, clean_code_no_fence.
  - unfold clean_code. apply strip_idem.
Qed.

Lemma pipeline_result_clean_witness :
  let w := quiet_world [] (lit "```mermaid graph TD ```") in
  let state := AgentState.mk (lit "Hello") None None (lit "p") in
  exists notes code,
    llm_content w [] (rewrite_prompt (AgentState.raw_notes state)) = Returned notes
    /\ AgentState.refined_notes
         (AgentState.mk (lit "Hello") (Some (lit "```mermaid graph TD ```"))
            (Some (lit "graph TD")) (lit "p")) = Some notes
    /\ AgentState.mermaid_code
         (AgentState.mk (lit "Hello") (Some (lit "```mermaid graph TD ```"))
            (Some (lit "graph TD")) (lit "p")) = Some code
    /\ contains fence code = false
    /\ contains fence_mermaid code = false
    /\ strip code = code.
Proof.
  intros w state.
  apply (pipeline_result_clean state w []
           (AgentState.mk (lit "Hello") (Some (lit "```mermaid graph TD ```"))
              (Some (lit "graph TD")) (lit "p"))
           (snd (app_invoke state w []))).
  reflexivity.
Defined.

(** X10: with two or more diagrams the merge makes exactly one call, to
    the model with the merge prompt, whatever the answer; when the model
    answers, the merge returns the answer cleaned, which holds no code
    fence and no white space at either end. *)
Theorem combine_merges (d1 d2 : DiagramInput.t) (rest : list DiagramInput.t) (title : str)
        (w : World) (tr : list Event) :
  let ctx := CombineDiagramsContext.mk (d1 :: d2 :: rest) title in
  snd (combine_architecture_diagrams ctx w tr) = tr ++ [LlmInvoke (combine_prompt ctx)]
  /\ forall response,
       llm_content w tr (combine_prompt ctx) = Returned response ->
       fst (combine_architecture_diagrams ctx w tr) = Returned (clean_code response)
       /\ contains fence (clean_code response) = false
       /\ strip (clean_code response) = clean_code response.
Proof.
  intros ctx. unfold combine_architecture_diagrams.
  cbn [CombineDiagramsContext.diagrams ctx]. fold ctx. run_eff.
  split.
  - now destruct (llm_content w tr (combine_prompt ctx)).
  - intros response ->. repeat split.
    + apply clean_code_no_fence.
    + unfold clean_code. apply strip_idem.
Qed.

Lemma combine_merges_witness :
  let ctx := CombineDiagramsContext.mk sample_diagrams (lit "Unified Architecture") in
  let w := quiet_world [] (lit "```mermaid graph TD ```") in
  fst (combine_architecture_diagrams ctx w [])
  = Returned (clean_code (lit "```mermaid graph TD ```"))
  /\ contains fence (clean_code (lit "```mermaid graph TD ```")) = false
  /\ strip (clean_code (lit "```mermaid graph TD ```"))
     = clean_code (lit "```mermaid graph TD ```").
Proof.
  intros ctx w.
  apply (proj2 (combine_merges (DiagramInput.mk (lit "A") (lit "graph TD; a-->b"))
                  (DiagramInput.mk (lit "B") (lit "graph TD; c-->d")) []
                  (lit "Unified Architecture") w [])
           (lit "```mermaid graph TD ```")).
  reflexivity.
Defined.

Lemma contains_trans (a b c : str) :
  contains a b = true -> contains b c = true -> contains a c = true.
Proof.
  intros Hab Hbc.
  apply contains_occurs in Hab as (x & y & ->).
  apply contains_occurs in Hbc as (u & v & ->).
  apply contains_occurs. exists (u ++ x), (y ++ v).
  now rewrite <- !app_assoc.
Qed.

Lemma contains_refl (s : str) : contains s s = true.
Proof.
  apply contains_occurs. exists [], []. now rewrite app_nil_r.
Qed.

Lemma contains_join (sep p : str) (parts : list str) :
  In p parts -> contains p (join sep parts) = true.
Proof.
  induction parts as [|q parts IH]; [intros []|].
  intros Hin.
  destruct parts as [|q' parts].
  - destruct Hin as [->|[]]. apply contains_refl.
  - change (join sep (q :: q' :: parts)) with (q ++ sep ++ join sep (q' :: parts)).
    destruct Hin as [->|Hin].
    + apply contains_app_r, contains_refl.
    + apply contains_app_l, contains_app_l, IH, Hin.
Qed.

Lemma contains_line (prefix s suffix : str) (sep : str) (parts : list str) :
  In (prefix ++ s ++ suffix) parts -> contains s (join sep parts) = true.
Proof.
  intros Hin. apply contains_trans with (b := prefix ++ s ++ suffix).
  - apply contains_app_l, contains_app_r, contains_refl.
  - now apply contains_join.
Qed.

(** X11: each prompt carries its input whole: the refiner's prompt the raw
    notes, the architect's prompt its text, and the merge prompt the title,
    the number of diagrams and, for every diagram of the request, its label
    as a heading over its code in a mermaid fence. *)
Theorem prompts_carry_input :
  (forall raw_notes, contains raw_notes (rewrite_prompt raw_notes) = true)
  /\ (forall content, contains content (diagram_prompt content) = true)
  /\ (forall ctx,
        contains (CombineDiagramsContext.title ctx) (combine_prompt ctx) = true
        /\ contains (lit "I have "
                       ++ of_nat (List.length (CombineDiagramsContext.diagrams ctx))
                       ++ lit " separate")
             (combine_prompt ctx) = true)
  /\ (forall ctx d,
        In d (CombineDiagramsContext.diagrams ctx) ->
        contains (lit "### " ++ DiagramInput.label d ++ [newline] ++ fence_mermaid
                    ++ [newline] ++ DiagramInput.mermaid_code d ++ [newline] ++ fence)
          (combine_prompt ctx) = true).
Proof.
  split; [|split; [|split]].
  - intros raw_notes. unfold rewrite_prompt.
    apply contains_line with (prefix := indent) (suffix := []).
    rewrite app_nil_r. cbn [In]. auto 10.
  - intros content. unfold diagram_prompt.
    apply contains_line with (prefix := indent) (suffix := []).
    rewrite app_nil_r. cbn [In]. auto 10.
  - intros ctx. unfold combine_prompt. cbn zeta. split.
    + apply contains_line
        with (prefix := lit "    into ONE unified system architecture diagram titled "
                          ++ [dquote])
             (suffix := [dquote] ++ lit ".").
      rewrite <- !app_assoc. cbn [In]. auto 10.
    + apply contains_trans
        with (b := lit "    I have "
                     ++ of_nat (List.length (CombineDiagramsContext.diagrams ctx))
                     ++ lit " separate architecture diagrams that I need you to combine ").
      * apply contains_occurs.
        exists (lit "    "), (lit " architecture diagrams that I need you to combine ").
        rewrite <- !app_assoc. reflexivity.
      * apply contains_join. cbn [In]. auto 10.
  - intros ctx d Hin. unfold combine_prompt. cbn zeta.
    apply contains_trans
      with (b := join [newline; newline]
                   (map diagram_section (CombineDiagramsContext.diagrams ctx))).
    + apply contains_join. apply in_map_iff. now exists d.
    + apply contains_line with (prefix := indent) (suffix := []).
      rewrite app_nil_r. cbn [In]. auto 25.
Qed.

Lemma prompts_carry_input_witness :
  let ctx := CombineDiagramsContext.mk sample_diagrams (lit "Unified Architecture") in
  contains (lit "### B" ++ [newline] ++ fence_mermaid ++ [newline]
              ++ lit "graph TD; c-->d" ++ [newline] ++ fence)
    (combine_prompt ctx) = true.
Proof.
  intros ctx.
  apply (proj2 (proj2 (proj2 prompts_carry_input)) ctx
           (DiagramInput.mk (lit "B") (lit "graph TD; c-->d"))).
  cbn. auto.
Defined.

(** ** Reading a page for inspection *)

Lemma get_page_content_run (ctx : PageContext.t) (w : World) (tr : list Event) :
  get_page_content ctx w tr
  = (match notion_list w tr (PageContext.page_id ctx) with
     | Raised e => Returned (lit "Error reading Notion: " ++ e)
     | Returned blocks =>
         Returned (if nonempty (content_parts blocks)
                   then join [newline] (content_parts blocks)
                   else page_empty_warning)
     end, tr ++ [BlocksChildrenList (PageContext.page_id ctx)]).
Proof.
  unfold get_page_content. rewrite bind_attempt. run_eff.
  now destruct (notion_list w tr (PageContext.page_id ctx)).
Qed.

Lemma content_parts_cons (block : Block) (blocks : list Block) :
  content_parts (block :: blocks) = content_parts [block] ++ content_parts blocks.
Proof.
  unfold content_parts. cbn [flat_map]. now rewrite app_nil_r.
Qed.

Lemma paragraph_parts_cons (block : Block) (blocks : list Block) :
  paragraph_parts (block :: blocks) = paragraph_parts [block] ++ paragraph_parts blocks.
Proof.
  unfold paragraph_parts. cbn [flat_map]. now rewrite app_nil_r.
Qed.

Lemma nonempty_map {A B} (f : A -> B) (l : list A) : nonempty (map f l) = nonempty l.
Proof. now destruct l. Qed.

(** One block gives no text exactly when it has no text runs or its type
    is not one of the five. *)
Lemma content_parts_one (block : Block) :
  content_parts [block] = []
  <-> rich_text block = []
      \/ (PyStr.eqb (type block) (lit "paragraph") = false
          /\ existsb (PyStr.eqb (type block)) headings = false
          /\ PyStr.eqb (type block) (lit "bulleted_list_item") = false).
Proof.
  unfold content_parts. cbn [flat_map]. rewrite app_nil_r.
  destruct (rich_text block) as [|run runs] eqn:Hruns; cbn [nonempty].
  - rewrite !andb_false_r.
    split; [now left|]. intros _.
    now destruct (existsb (PyStr.eqb (type block)) headings).
  - rewrite !andb_true_r.
    destruct (PyStr.eqb (type block) (lit "paragraph")).
    + split; [discriminate|]. intros [H|(H & _)]; discriminate.
    + destruct (existsb (PyStr.eqb (type block)) headings).
      * split; [discriminate|]. intros [H|(_ & H & _)]; discriminate.
      * destruct (PyStr.eqb (type block) (lit "bulleted_list_item")).
        -- split; [discriminate|]. intros [H|(_ & _ & H)]; discriminate.
        -- split; [now right|reflexivity].
Qed.

(** X12: [get_page_content] only reads: its one call is the read of the
    page.  A read that raises gives "Error reading Notion: " and the
    message; a page on which every block has no text runs or a type other
    than paragraph, heading 1 to 3 and bulleted item gives the "Page is
    empty" warning; any other page gives its parts joined by newlines. *)
Theorem page_content_read (ctx : PageContext.t) (w : World) (tr : list Event) :
  let page_id := PageContext.page_id ctx in
  let silent block :=
    rich_text block = []
    \/ (PyStr.eqb (type block) (lit "paragraph") = false
        /\ existsb (PyStr.eqb (type block)) headings = false
        /\ PyStr.eqb (type block) (lit "bulleted_list_item") = false) in
  snd (get_page_content ctx w tr) = tr ++ [BlocksChildrenList page_id]
  /\ (forall e, notion_list w tr page_id = Raised e ->
                fst (get_page_content ctx w tr)
                = Returned (lit "Error reading Notion: " ++ e))
  /\ (forall blocks,
        notion_list w tr page_id = Returned blocks ->
        (Forall silent blocks ->
         fst (get_page_content ctx w tr) = Returned page_empty_warning)
        /\ (Exists (fun block => ~ silent block) blocks ->
            content_parts blocks <> []
            /\ fst (get_page_content ctx w tr)
               = Returned (join [newline] (content_parts blocks)))).
Proof.
  intros page_id silent. rewrite get_page_content_run. fold page_id. cbn [fst snd].
  split; [reflexivity|]. split.
  - now intros e ->.
  - intros blocks ->. split.
    + intros Hsilent.
      assert (content_parts blocks = []) as ->; [|reflexivity].
      induction Hsilent as [|block blocks Hb _ IH]; [reflexivity|].
      rewrite content_parts_cons, IH, app_nil_r. now apply content_parts_one.
    + intros Hloud.
      assert (content_parts blocks <> []) as Hne.
      { induction Hloud as [block blocks Hb|block blocks _ IH];
          rewrite content_parts_cons; intros Hnil;
          apply app_eq_nil in Hnil as [H1 H2].
        - apply Hb, content_parts_one, H1.
        - now apply IH. }
      split; [exact Hne|].
      destruct (content_parts blocks); [congruence|reflexivity].
Qed.

Lemma page_content_read_witness :
  let heading := {| type := lit "heading_2"; rich_text := [ {| plain_text := lit "Plan" |} ] |} in
  let divider := {| type := lit "divider"; rich_text := [] |} in
  fst (get_page_content (PageContext.mk (lit "p")) (unreachable_store (lit "404")) [])
  = Returned (lit "Error reading Notion: " ++ lit "404")
  /\ fst (get_page_content (PageContext.mk (lit "p")) (quiet_world [divider] []) [])
     = Returned page_empty_warning
  /\ fst (get_page_content (PageContext.mk (lit "p")) (quiet_world [divider; heading] []) [])
     = Returned (join [newline] (content_parts [divider; heading])).
Proof.
  intros heading divider. split; [|split].
  - apply (proj1 (proj2 (page_content_read (PageContext.mk (lit "p"))
                           (unreachable_store (lit "404")) []))).
    reflexivity.
  - apply (proj1 (proj2 (proj2 (page_content_read (PageContext.mk (lit "p"))
                                  (quiet_world [divider] []) []))
                    [divider] eq_refl)).
    constructor; [|constructor]. left. reflexivity.
  - apply (proj2 (proj2 (proj2 (page_content_read (PageContext.mk (lit "p"))
                                  (quiet_world [divider; heading] []) []))
                    [divider; heading] eq_refl)).
    apply Exists_cons_tl, Exists_cons_hd.
    intros [H|(_ & H & _)]; discriminate H.
Defined.

Lemma str_eqb_eq (a b : str) : PyStr.eqb a b = true -> a = b.
Proof.
  revert b; induction a as [|x a IH]; intros [|y b] H; try discriminate; [reflexivity|].
  cbn in H. apply andb_true_iff in H as [Hx Ha].
  apply N.eqb_eq in Hx. subst y. f_equal. now apply IH.
Qed.

Lemma content_parts_paragraph (block : Block) :
  PyStr.eqb (type block) (lit "paragraph") = true ->
  content_parts [block] = paragraph_parts [block].
Proof.
  intros Ht. unfold content_parts, paragraph_parts. cbn [flat_map].
  rewrite Ht. destruct (nonempty (rich_text block)); cbn [andb]; [reflexivity|].
  apply str_eqb_eq in Ht. rewrite Ht. reflexivity.
Qed.

(** X13: the text [process_research_page] extracts is what
    [get_page_content] renders for the paragraph blocks of the page alone;
    so on a page of paragraph blocks with a text run the inspection tool
    returns exactly the raw notes of the pipeline. *)
Theorem extractors_agree :
  (forall blocks,
      paragraph_parts blocks
      = content_parts
          (filter (fun block => PyStr.eqb (type block) (lit "paragraph")) blocks))
  /\ (forall ctx w tr blocks,
        notion_list w tr (PageContext.page_id ctx) = Returned blocks ->
        Forall (fun block => PyStr.eqb (type block) (lit "paragraph") = true) blocks ->
        paragraph_parts blocks <> [] ->
        fst (get_page_content ctx w tr)
        = Returned (join [newline] (paragraph_parts blocks))).
Proof.
  assert (forall blocks,
             paragraph_parts blocks
             = content_parts
                 (filter (fun block => PyStr.eqb (type block) (lit "paragraph")) blocks))
    as Hfilter.
  { induction blocks as [|block blocks IH]; [reflexivity|].
    rewrite paragraph_parts_cons, IH. cbn [filter].
    destruct (PyStr.eqb (type block) (lit "paragraph")) eqn:Ht.
    - rewrite content_parts_cons. f_equal. symmetry. now apply content_parts_paragraph.
    - unfold paragraph_parts. cbn [flat_map]. now rewrite Ht. }
  split; [exact Hfilter|].
  intros ctx w tr blocks Hlist Hall Hne.
  rewrite get_page_content_run, Hlist. cbn [fst].
  assert (content_parts blocks = paragraph_parts blocks) as ->.
  { rewrite Hfilter. f_equal. symmetry. apply forallb_filter_id.
    apply forallb_forall. now apply Forall_forall. }
  destruct (paragraph_parts blocks); [congruence|reflexivity].
Qed.

Lemma extractors_agree_witness :
  let blocks := [paragraph_block (lit "Hello"); paragraph_block (lit "World")] in
  fst (get_page_content (PageContext.mk (lit "p")) (quiet_world blocks []) [])
  = Returned (join [newline] (paragraph_parts blocks)).
Proof.
  intros blocks.
  apply (proj2 extractors_agree (PageContext.mk (lit "p")) (quiet_world blocks []) [] blocks).
  - reflexivity.
  - repeat constructor.
  - discriminate.
Defined.

(** X14: a heading block of level 1, 2 or 3 with text runs is rendered as
    one part: a newline, as many [#] as the level, a space, the runs put
    together, and a newline. *)
Theorem heading_rendered (level : nat) (runs : list RichText) :
  In level [1; 2; 3] ->
  runs <> [] ->
  content_parts [ {| type := lit "heading_" ++ of_nat level; rich_text := runs |} ]
  = [ [newline] ++ repeat 35%N level ++ lit " " ++ concat (map plain_text runs)
        ++ [newline] ].
Proof.
  intros Hlevel Hruns.
  destruct runs as [|run runs]; [congruence|].
  destruct Hlevel as [<-|[<-|[<-|[]]]]; reflexivity.
Qed.

Lemma heading_rendered_witness :
  content_parts [ {| type := lit "heading_2";
                     rich_text := [ {| plain_text := lit "Open " |};
                                    {| plain_text := lit "questions" |} ] |} ]
  = [ [newline] ++ lit "## Open questions" ++ [newline] ].
Proof.
  apply (heading_rendered 2 [ {| plain_text := lit "Open " |};
                              {| plain_text := lit "questions" |} ]).
  - cbn. auto.
  - discriminate.
Defined.

(** X15: the handlers judge by the text alone: a page that was read
    without failure and whose content begins with "Error" is answered with
    status 400, and so is a single diagram whose code begins with
    "Error". *)
Theorem error_text_answered_400 (w : World) (tr : list Event) :
  (forall page_id blocks,
      notion_list w tr page_id = Returned blocks ->
      content_parts blocks <> [] ->
      startswith error_prefix (join [newline] (content_parts blocks)) = true ->
      get_content page_id w tr
      = (Returned (HTTPException 400 (join [newline] (content_parts blocks))),
         tr ++ [BlocksChildrenList page_id]))
  /\ (forall d title,
        startswith error_prefix (DiagramInput.mermaid_code d) = true ->
        combine_diagrams (CombineDiagramsContext.mk [d] title) w tr
        = (Returned (HTTPException 400 (DiagramInput.mermaid_code d)), tr)).
Proof.
  split.
  - intros page_id blocks Hlist Hne Herr.
    unfold get_content, bind. rewrite get_page_content_run.
    cbn [PageContext.page_id]. rewrite Hlist.
    destruct (content_parts blocks) eqn:E; [congruence|]. cbn [nonempty].
    now rewrite Herr.
  - intros d title Herr. unfold combine_diagrams, bind.
    cbn [combine_architecture_diagrams CombineDiagramsContext.diagrams ret].
    unfold combine_architecture_diagrams. cbn [CombineDiagramsContext.diagrams ret].
    unfold ret. now rewrite Herr.
Qed.

Lemma error_text_answered_400_witness :
  let blocks := [paragraph_block (lit "Error budget review")] in
  let d := DiagramInput.mk (lit "A") (lit "ErrorHandler --> Retry") in
  get_content (lit "p") (quiet_world blocks []) []
  = (Returned (HTTPException 400 (join [newline] (content_parts blocks))),
     [] ++ [BlocksChildrenList (lit "p")])
  /\ combine_diagrams (CombineDiagramsContext.mk [d] (lit "T")) (quiet_world blocks []) []
     = (Returned (HTTPException 400 (DiagramInput.mermaid_code d)), []).
Proof.
  intros blocks d.
  destruct (error_text_answered_400 (quiet_world blocks []) []) as [Hpage Hdiagram].
  split.
  - apply (Hpage (lit "p") blocks); [reflexivity|discriminate|reflexivity].
  - apply (Hdiagram d (lit "T")). reflexivity.
Defined.

Lemma process_call_bounds_witness :
  let blocks := [paragraph_block (lit "Hello")] in
  let w := quiet_world blocks (lit "graph TD") in
  exists prompts calls,
    snd (process_research_page (PageContext.mk (lit "p")) w [])
    = [] ++ BlocksChildrenList (lit "p")
         :: map LlmInvoke prompts ++ map (BlocksChildrenAppend (lit "p")) calls
    /\ List.length prompts = 2.
Proof.
  intros blocks w.
  destruct (process_call_bounds (PageContext.mk (lit "p")) w [])
    as (prompts & calls & Htrace & Hprompts & Hcalls & Hboth).
  exists prompts, calls. split; [exact Htrace|].
  apply Hboth. intros ->.
  apply (f_equal (@List.length Event)) in Htrace.
  cbn [PageContext.page_id map] in Htrace.
  rewrite app_nil_r in Htrace. cbn [app List.length] in Htrace.
  rewrite length_map in Htrace.
  assert (List.length (snd (process_research_page (PageContext.mk (lit "p")) w [])) = 8)
    as Hlen by (vm_compute; reflexivity).
  rewrite Hlen in Htrace. lia.
Defined.

Lemma paragraph_within_limit_witness :
  let result := AgentState.mk (lit "raw") (Some (lit "# Notes")) None (lit "p") in
  1 <= List.length (lit "# Notes") <= 2000.
Proof.
  intros result.
  destruct (paragraph_within_limit (lit "p") result (quiet_world [] []) [])
    as (new & Hwritten & Hlen & Hall).
  apply Hall.
  vm_compute in Hwritten. rewrite <- Hwritten. now left.
Defined.
